(** * pyley: the quad model and the Gremlin query builder

    A shallow embedding of [pyley.py]: the classes [CayleyQuad],
    [CayleyQuads], [_QueryDefinition], [_GremlinQuery], [_Path],
    [_Vertex], [_Morphism] and [GraphObject].

    Conventions of the embedding.
    - Python text is a [string]; the text functions ([strip], [lower])
      are the ASCII ones, characters above 127 are left as they are.
    - The interpreter is the one of Python 3 (3.4 or later): [str] is the
      text type, [format] with a non-empty format specification on an
      object that does not define [__format__] raises [TypeError].
    - A call that may raise returns a [result]; a method that mutates its
      receiver returns the receiver's new state next to its outcome.
    - The [json] module, the text of a built-in container and the hash of
      a text and of [None] are not code of this library: they are
      parameters ([decode], [json_dumps], [container_str], [str_hash],
      [none_hash]) of the definitions that use them.
    - [CayleyClient], [GraphObject.Emit] and the [to_json] of [CayleyQuads]
      only hand texts to [requests] and [json]; they are not embedded. *)

From Stdlib Require Import Ascii String.
From stdpp Require Import base numbers strings list gmap pretty.

Local Open Scope string_scope.

(** ** Exceptions and outcomes *)

(** The exception classes the library raises or lets through.  [Exception]
    carries its message, as in [raise Exception("...")]. *)
Inductive exn :=
| TypeError
| ValueError
| AttributeError
| NotAValidQuadError
| Exception (msg : string).

Global Instance exn_eq_dec : EqDecision exn.
Proof. solve_decision. Defined.

Inductive result (A : Type) :=
| Ok (a : A)
| Raise (e : exn).
Arguments Ok {A} a.
Arguments Raise {A} e.

Global Instance result_ret : MRet result := @Ok.
Global Instance result_bind : MBind result := λ A B k r,
  match r with
  | Ok a => k a
  | Raise e => Raise e
  end.

(** [try: body except cls: handler], for one exception class. *)
Definition try_except {A} (body : result A) (cls : exn) (handler : result A)
  : result A :=
  match body with
  | Ok a => Ok a
  | Raise e => if decide (e = cls) then handler else Raise e
  end.

Fixpoint rmapM {A B} (f : A → result B) (l : list A) : result (list B) :=
  match l with
  | [] => Ok []
  | x :: l' => y ← f x; ys ← rmapM f l'; Ok (y :: ys)
  end.

(** ** Text primitives used by the library *)

(** Whitespace of [str.strip()] in the ASCII range. *)
Definition is_whitespace (c : ascii) : bool :=
  let n := nat_of_ascii c in
  ((9 <=? n)%nat && (n <=? 13)%nat) || ((28 <=? n)%nat && (n <=? 32)%nat).

Fixpoint lstrip (s : string) : string :=
  match s with
  | EmptyString => EmptyString
  | String c s' => if is_whitespace c then lstrip s' else s
  end.

Fixpoint rstrip (s : string) : string :=
  match s with
  | EmptyString => EmptyString
  | String c s' =>
      match rstrip s' with
      | EmptyString => if is_whitespace c then EmptyString else String c EmptyString
      | r => String c r
      end
  end.

Definition strip (s : string) : string := rstrip (lstrip s).

(** A text without whitespace at either end. *)
Definition trimmed (s : string) : Prop := lstrip s = s ∧ rstrip s = s.

(** A text transformed character by character. *)
Fixpoint map_chars (f : ascii → ascii) (s : string) : string :=
  match s with
  | EmptyString => EmptyString
  | String c s' => String (f c) (map_chars f s')
  end.

(** [s.replace(old, new)] for one-character [old] and [new]. *)
Definition replace (old new : ascii) (s : string) : string :=
  map_chars (λ c, if decide (c = old) then new else c) s.

Definition lower_char (c : ascii) : ascii :=
  let n := nat_of_ascii c in
  if ((65 <=? n)%nat && (n <=? 90)%nat) then ascii_of_nat (n + 32) else c.

Definition lower (s : string) : string := map_chars lower_char s.

(** [sep.join(parts)] on texts. *)
Fixpoint join (sep : string) (parts : list string) : string :=
  match parts with
  | [] => ""
  | [p] => p
  | p :: rest => p +:+ sep +:+ join sep rest
  end.

(** ** Python values *)

(** The state of a [CayleyQuad] instance: its four attributes.  Each is what
    [_clean] returns, a text or [None]. *)
Record CayleyQuad := mkQuad {
  subject : option string;
  predicate : option string;
  object : option string;
  label : option string
}.

Global Instance CayleyQuad_eq_dec : EqDecision CayleyQuad.
Proof. solve_decision. Defined.

Global Instance CayleyQuad_countable : Countable CayleyQuad.
Proof.
  apply (inj_countable'
    (λ q, (subject q, predicate q, object q, label q))
    (λ t, let '(s, p, o, l) := t in mkQuad s p o l)).
  by intros [].
Defined.

(** The values that reach the library's functions.  A dict has text keys,
    kept in insertion order; [VRef a] is the query object at address [a] of
    the heap (an instance of [_Vertex] or [_Morphism]). *)
#[warnings="-register-all"]
Inductive value :=
| VNone
| VBool (b : bool)
| VInt (z : Z)
| VStr (s : string)
| VList (l : list value)
| VTuple (l : list value)
| VDict (d : list (string * value))
| VQuad (q : CayleyQuad)
| VRef (a : nat).

(** [d.get(k)] on the association list of a dict. *)
Fixpoint dict_get (k : string) (d : list (string * value)) : option value :=
  match d with
  | [] => None
  | (k', v) :: d' => if decide (k' = k) then Some v else dict_get k d'
  end.

Definition dict_keys (d : list (string * value)) : list string := d.*1.

(** [d[k] = v]: an existing key keeps its place. *)
Fixpoint dict_set (k : string) (v : value) (d : list (string * value))
  : list (string * value) :=
  match d with
  | [] => [(k, v)]
  | (k', v') :: d' =>
      if decide (k' = k) then (k, v) :: d' else (k', v') :: dict_set k v d'
  end.

(** [for x in obj]: the elements of a list or a tuple, the keys of a dict,
    the characters of a text; the other values are not iterable. *)
Definition iterate (obj : value) : result (list value) :=
  match obj with
  | VList l | VTuple l => Ok l
  | VDict d => Ok (VStr <$> dict_keys d)
  | VStr s => Ok ((λ c, VStr (String c EmptyString)) <$> list_ascii_of_string s)
  | _ => Raise TypeError
  end.

(** ** The [json] module, as far as the library calls it *)

(** [json.loads(obj)]: a [TypeError] when [obj] is not text, a [ValueError]
    ([JSONDecodeError] is one) when the text is not a JSON document.  The
    decoder of JSON text itself is the parameter [decode]. *)
Definition json_loads (decode : string → option value) (obj : value)
  : result value :=
  match obj with
  | VStr s =>
      match decode s with
      | Some v => Ok v
      | None => Raise ValueError
      end
  | _ => Raise TypeError
  end.

(** A decoder to put in the place of [decode] in examples: JSON documents
    made of objects, arrays, texts with the one-character escapes,
    integers, [true], [false] and [null].  An object becomes a dict (a
    repeated key keeps its first place and its last value), an array a
    list.  [fuel] bounds the nesting. *)
Module Json.

Definition quote : ascii := "034"%char.
Definition backslash : ascii := "092"%char.

Definition is_ws (c : ascii) : bool :=
  bool_decide (c = " "%char) || bool_decide (c = "009"%char) ||
  bool_decide (c = "010"%char) || bool_decide (c = "013"%char).

Fixpoint skip_ws (s : string) : string :=
  match s with
  | EmptyString => EmptyString
  | String c s' => if is_ws c then skip_ws s' else s
  end.

Definition unescape (c : ascii) : option ascii :=
  if decide (c = quote) then Some quote
  else if decide (c = backslash) then Some backslash
  else if decide (c = "/"%char) then Some "/"%char
  else if decide (c = "n"%char) then Some "010"%char
  else if decide (c = "t"%char) then Some "009"%char
  else if decide (c = "r"%char) then Some "013"%char
  else if decide (c = "b"%char) then Some "008"%char
  else if decide (c = "f"%char) then Some "012"%char
  else None.

(** The text after an opening quote, up to the closing one. *)
Fixpoint text_body (s : string) : option (string * string) :=
  match s with
  | EmptyString => None
  | String c rest =>
      if decide (c = quote) then Some (EmptyString, rest)
      else if decide (c = backslash) then
        match rest with
        | String e rest' =>
            match unescape e, text_body rest' with
            | Some c', Some (body, r) => Some (String c' body, r)
            | _, _ => None
            end
        | EmptyString => None
        end
      else if (nat_of_ascii c <? 32)%nat then None
      else
        match text_body rest with
        | Some (body, r) => Some (String c body, r)
        | None => None
        end
  end.

Fixpoint digits (acc : N) (s : string) : N * string :=
  match s with
  | String c rest =>
      match Ascii.is_nat c with
      | Some n => digits (10 * acc + N.of_nat n)%N rest
      | None => (acc, s)
      end
  | EmptyString => (acc, s)
  end.

(** An integer: digits, without a leading zero, not followed by a
    fraction or an exponent. *)
Definition number (s : string) : option (Z * string) :=
  match s with
  | String c rest =>
      match Ascii.is_nat c with
      | None => None
      | Some _ =>
          let '(n, r) := digits 0 s in
          match r with
          | String d _ =>
              if bool_decide (d = "."%char) || bool_decide (d = "e"%char)
                 || bool_decide (d = "E"%char) then None
              else if bool_decide (c = "0"%char) && negb (bool_decide (rest = r))
              then None else Some (Z.of_N n, r)
          | EmptyString =>
              if bool_decide (c = "0"%char) && negb (bool_decide (rest = r))
              then None else Some (Z.of_N n, r)
          end
      end
  | EmptyString => None
  end.

Fixpoint element (fuel : nat) (s : string) : option (value * string) :=
  match fuel with
  | O => None
  | S fuel' =>
      match skip_ws s with
      | String "n" (String "u" (String "l" (String "l" r))) => Some (VNone, r)
      | String "t" (String "r" (String "u" (String "e" r))) =>
          Some (VBool true, r)
      | String "f" (String "a" (String "l" (String "s" (String "e" r)))) =>
          Some (VBool false, r)
      | String "[" r =>
          match skip_ws r with
          | String "]" r' => Some (VList [], r')
          | _ =>
              match elements fuel' r with
              | Some (vs, r') => Some (VList vs, r')
              | None => None
              end
          end
      | String "{" r =>
          match skip_ws r with
          | String "}" r' => Some (VDict [], r')
          | _ =>
              match members fuel' r with
              | Some (kvs, r') =>
                  Some (VDict (foldl (λ d kv, dict_set kv.1 kv.2 d) [] kvs), r')
              | None => None
              end
          end
      | String "-" r =>
          match number r with
          | Some (z, r') => Some (VInt (- z), r')
          | None => None
          end
      | String c r =>
          if decide (c = quote) then
            match text_body r with
            | Some (body, r') => Some (VStr body, r')
            | None => None
            end
          else
            match number (String c r) with
            | Some (z, r') => Some (VInt z, r')
            | None => None
            end
      | EmptyString => None
      end
  end
with elements (fuel : nat) (s : string) : option (list value * string) :=
  match fuel with
  | O => None
  | S fuel' =>
      match element fuel' s with
      | Some (v, r) =>
          match skip_ws r with
          | String "," r' =>
              match elements fuel' r' with
              | Some (vs, r'') => Some (v :: vs, r'')
              | None => None
              end
          | String "]" r' => Some ([v], r')
          | _ => None
          end
      | None => None
      end
  end
with members (fuel : nat) (s : string)
  : option (list (string * value) * string) :=
  match fuel with
  | O => None
  | S fuel' =>
      match skip_ws s with
      | String c r =>
          if decide (c = quote) then
            match text_body r with
            | Some (k, r1) =>
                match skip_ws r1 with
                | String ":" r2 =>
                    match element fuel' r2 with
                    | Some (v, r3) =>
                        match skip_ws r3 with
                        | String "," r4 =>
                            match members fuel' r4 with
                            | Some (kvs, r5) => Some ((k, v) :: kvs, r5)
                            | None => None
                            end
                        | String "}" r4 => Some ([(k, v)], r4)
                        | _ => None
                        end
                    | None => None
                    end
                | _ => None
                end
            | None => None
            end
          else None
      | EmptyString => None
      end
  end.

(** A whole document: one value, then nothing but whitespace. *)
Definition decode (s : string) : option value :=
  match element (2 * String.length s + 2) s with
  | Some (v, r) =>
      match skip_ws r with
      | EmptyString => Some v
      | _ => None
      end
  | None => None
  end.

(** A text between double quotes. *)
Definition quoted (s : string) : string :=
  String quote s +:+ String quote EmptyString.

Definition hex_digit (n : nat) : ascii :=
  ascii_of_nat (if (n <? 10)%nat then 48 + n else 87 + n).

(** The escapes of [json.dumps]: the one-character ones, and [u00XX] for
    the other characters below 32 or above 126. *)
Definition escape_char (c : ascii) : string :=
  let short (e : ascii) := String backslash (String e EmptyString) in
  if decide (c = quote) then short quote
  else if decide (c = backslash) then short backslash
  else if decide (c = "010"%char) then short "n"%char
  else if decide (c = "013"%char) then short "r"%char
  else if decide (c = "009"%char) then short "t"%char
  else if decide (c = "008"%char) then short "b"%char
  else if decide (c = "012"%char) then short "f"%char
  else
    let n := nat_of_ascii c in
    if ((n <? 32)%nat || (127 <? n)%nat) then
      String backslash
        (String "u" (String "0" (String "0"
           (String (hex_digit (n / 16)) (String (hex_digit (n mod 16))
              EmptyString)))))
    else String c EmptyString.

Fixpoint escape (s : string) : string :=
  match s with
  | EmptyString => EmptyString
  | String c s' => escape_char c +:+ escape s'
  end.

(** An encoder to put in the place of [json_dumps] in examples, with the
    separators of [json.dumps]; [None] on an object that [json] does not
    serialize. *)
Fixpoint encode (v : value) : option string :=
  match v with
  | VNone => Some "null"
  | VBool b => Some (if b then "true" else "false")
  | VInt z => Some (pretty z)
  | VStr s => Some (quoted (escape s))
  | VList l | VTuple l =>
      match (fix items (l : list value) : option (list string) :=
               match l with
               | [] => Some []
               | x :: r =>
                   match encode x, items r with
                   | Some e, Some es => Some (e :: es)
                   | _, _ => None
                   end
               end) l with
      | Some es => Some ("[" +:+ join ", " es +:+ "]")
      | None => None
      end
  | VDict d =>
      match (fix items (d : list (string * value)) : option (list string) :=
               match d with
               | [] => Some []
               | (k, x) :: r =>
                   match encode x, items r with
                   | Some e, Some es =>
                       Some ((quoted (escape k) +:+ ": " +:+ e) :: es)
                   | _, _ => None
                   end
               end) d with
      | Some es => Some ("{" +:+ join ", " es +:+ "}")
      | None => None
      end
  | VQuad _ | VRef _ => None
  end.

(** [encode] as a total function, for the values [json] serializes. *)
Definition dumps (v : value) : string := default EmptyString (encode v).

End Json.

(** ** class CayleyQuad *)

Module CayleyQuad.

(** [obj.strip().replace(' ', '_').lower()] on a text. *)
Definition clean_text (s : string) : string :=
  lower (replace " " "_" (strip s)).

(** [... if obj is not None else None]; a value without a [strip] method
    raises [AttributeError]. *)
Definition _clean (obj : value) : result (option string) :=
  match obj with
  | VNone => Ok None
  | VStr s => Ok (Some (clean_text s))
  | _ => Raise AttributeError
  end.

(** The signature [__init__(self, subject, predicate, object, label=None)]. *)
Definition accepted : list string :=
  ["subject"; "predicate"; "object"; "label"].

(** Binding of the keyword arguments of [cls( **obj )]: [obj] has to be a
    mapping, every key a parameter name other than [self], and the three
    parameters without default have to be given; otherwise [TypeError]. *)
Definition bind_keywords (obj : value)
  : result (value * value * value * value) :=
  match obj with
  | VDict d =>
      if forallb (λ k, bool_decide (k ∈ accepted)) (dict_keys d) then
        match dict_get "subject" d, dict_get "predicate" d,
              dict_get "object" d with
        | Some s, Some p, Some o =>
            Ok (s, p, o, default VNone (dict_get "label" d))
        | _, _, _ => Raise TypeError
        end
      else Raise TypeError
  | _ => Raise TypeError
  end.

Definition __init__ (subject predicate object label : value)
  : result CayleyQuad :=
  s ← _clean subject;
  p ← _clean predicate;
  o ← _clean object;
  l ← _clean label;
  Ok (mkQuad s p o l).

(** [cls( **obj )]. *)
Definition call_with_keywords (obj : value) : result CayleyQuad :=
  args ← bind_keywords obj;
  let '(s, p, o, l) := args in __init__ s p o l.

Definition attr (a : option string) : value :=
  match a with
  | Some s => VStr s
  | None => VNone
  end.

Definition to_dict (self : CayleyQuad) : list (string * value) :=
  let r := [("subject", attr (subject self));
            ("predicate", attr (predicate self));
            ("object", attr (object self))] in
  match label self with
  | Some l => (r ++ [("label", VStr l)])%list
  | None => r
  end.

(** [json.dumps(self.to_dict())]; [__str__] returns it. *)
Definition to_json (json_dumps : value → string) (self : CayleyQuad)
  : string :=
  json_dumps (VDict (to_dict self)).

Definition __str__ (json_dumps : value → string) (self : CayleyQuad)
  : string :=
  to_json json_dumps self.

Definition from_dict (obj : value) : result CayleyQuad :=
  try_except (call_with_keywords obj) TypeError (Raise NotAValidQuadError).

Definition from_json (decode : string → option value) (obj : value)
  : result CayleyQuad :=
  try_except (v ← json_loads decode obj; from_dict v)
             ValueError (Raise NotAValidQuadError).

(** An attribute that [_clean] leaves as it is. *)
Definition canonical (a : option string) : Prop :=
  _clean (attr a) = Ok a.

(** The comparison at the end of [__eq__]. *)
Definition same_attributes (self other : CayleyQuad) : bool :=
  bool_decide (subject self = subject other) &&
  bool_decide (predicate self = predicate other) &&
  bool_decide (object self = object other) &&
  bool_decide (label self = label other).

Definition __eq__ (decode : string → option value)
    (self : CayleyQuad) (other : value) : result bool :=
  match other with
  | VQuad o => Ok (same_attributes self o)
  | _ =>
      match from_dict other with
      | Ok o => Ok (same_attributes self o)
      | Raise NotAValidQuadError =>
          match from_json decode other with
          | Ok o => Ok (same_attributes self o)
          | Raise NotAValidQuadError => Ok false
          | Raise e => Raise e
          end
      | Raise e => Raise e
      end
  end.

(** [x.__hash__()] of an attribute: of a text or of [None]. *)
Definition attr_hash (str_hash : string → Z) (none_hash : Z)
    (a : option string) : Z :=
  match a with
  | Some s => str_hash s
  | None => none_hash
  end.

Definition __hash__ (str_hash : string → Z) (none_hash : Z)
    (self : CayleyQuad) : Z :=
  (3 * attr_hash str_hash none_hash (subject self) +
   5 * attr_hash str_hash none_hash (predicate self) +
   7 * attr_hash str_hash none_hash (object self) +
   11 * attr_hash str_hash none_hash (label self))%Z.

End CayleyQuad.

(** ** class CayleyQuads *)

(** What the attribute [quads] holds: the list of the default constructor
    or a set of quads.  A Python set keeps one element per class of [__eq__]
    with equal [__hash__]; on quads [__eq__] is equality of the four
    attributes (lemma [eq_quad_decides]), so the set is a [gset]. *)
Inductive collection :=
| PyList (l : list CayleyQuad)
| PySet (s : gset CayleyQuad).

Record CayleyQuads := mkQuads { quads : collection }.

Module CayleyQuads.

(** [self.quads = quads if quads is not None else []] *)
Definition __init__ (quads : option collection) : CayleyQuads :=
  mkQuads (default (PyList []) quads).

(** [self.quads.add(quad)]: a list has no method [add]. *)
Definition add_quad (self : CayleyQuads) (quad : CayleyQuad)
  : result unit * CayleyQuads :=
  match quads self with
  | PySet s => (Ok (), mkQuads (PySet (s ∪ {[quad]})))
  | PyList _ => (Raise AttributeError, self)
  end.

(** [self.quads | set(quads)]: an expression statement.  On a set the
    union is computed and dropped; [list | set] is a [TypeError]. *)
Definition add_quads (self : CayleyQuads) (quads' : list CayleyQuad)
  : result unit * CayleyQuads :=
  match quads self with
  | PySet s => let _ := s ∪ list_to_set quads' in (Ok (), self)
  | PyList _ => (Raise TypeError, self)
  end.

(** [cls(quads={CayleyQuad.from_dict(quad) for quad in obj})] *)
Definition from_list (obj : list value) : result CayleyQuads :=
  qs ← rmapM CayleyQuad.from_dict obj;
  Ok (__init__ (Some (PySet (list_to_set qs)))).

(** [from_list] on any value: the comprehension iterates over [obj]. *)
Definition from_iterable (obj : value) : result CayleyQuads :=
  items ← iterate obj;
  from_list items.

(** [cls.from_list(json.loads(obj))] *)
Definition from_json (decode : string → option value) (obj : value)
  : result CayleyQuads :=
  v ← json_loads decode obj;
  from_iterable v.

(** The elements held, whatever the collection. *)
Definition content (self : CayleyQuads) : gset CayleyQuad :=
  match quads self with
  | PySet s => s
  | PyList l => list_to_set l
  end.

End CayleyQuads.

(** ** Query objects and the heap *)

(** The two classes of query objects, both subclasses of [_Path]. *)
Inductive query_class :=
| _Vertex
| _Morphism.

Global Instance query_class_eq_dec : EqDecision query_class.
Proof. solve_decision. Defined.

(** [_QueryDefinition]: the token and the tuple of parameters. *)
Record _QueryDefinition := mkDef {
  token : string;
  parameters : list value
}.

(** An instance of [_GremlinQuery]: its class and [queryDeclarations]. *)
Record _GremlinQuery := mkQuery {
  class_of : query_class;
  queryDeclarations : list _QueryDefinition
}.

(** Query objects are mutable and passed by reference: they live in a heap,
    [VRef a] being the object at index [a]. *)
Abbreviation heap := (list _GremlinQuery).

(** A method on query objects: from a heap to an outcome and the heap
    after the call.  [None] is not a Python outcome: the model has no
    object at an address it was asked to follow. *)
Definition Op (A : Type) : Type := heap → option (result A * heap).

Global Instance Op_ret : MRet Op := λ A a h, Some (Ok a, h).
Global Instance Op_bind : MBind Op := λ A B k m h,
  match m h with
  | Some (Ok a, h') => k a h'
  | Some (Raise e, h') => Some (Raise e, h')
  | None => None
  end.

Definition raise {A} (e : exn) : Op A := λ h, Some (Raise e, h).
Definition lift {A} (r : result A) : Op A := λ h, Some (r, h).

(** [isinstance(v, cls)] for a class of query objects. *)
Definition isinstance (h : heap) (v : value) (c : query_class) : bool :=
  match v with
  | VRef a =>
      match h !! a with
      | Some q => bool_decide (class_of q = c)
      | None => false
      end
  | _ => false
  end.

(** [type(v) is str] *)
Definition is_str (v : value) : bool :=
  match v with
  | VStr _ => true
  | _ => false
  end.

(** ** Formatting *)

(** ['{0:s}'.format(v)]: the text itself; [int] and [bool] reject the
    format code [s] with a [ValueError]; the other values have the
    [__format__] of [object], which raises [TypeError] on a non-empty
    specification. *)
Definition format_s (v : value) : result string :=
  match v with
  | VStr s => Ok s
  | VInt _ | VBool _ => Raise ValueError
  | _ => Raise TypeError
  end.

(** [sep.join(items)]: every item has to be text. *)
Fixpoint join_values (items : list value) : result (list string) :=
  match items with
  | [] => Ok []
  | VStr s :: rest => ss ← join_values rest; Ok (s :: ss)
  | _ :: _ => Raise TypeError
  end.

Definition str_join (sep : string) (items : list value) : result string :=
  ss ← join_values items; Ok (join sep ss).

(** [token % parameters] for the conversions the library's templates use,
    [%s] and [%d] (and the escape [%%]).  [str_of] is [str] on a value: its
    outcome, or [None] when the model could not follow an address. *)
Fixpoint format_percent (str_of : value → option (result string))
    (tok : string) (params : list value) : option (result string) :=
  match tok with
  | EmptyString =>
      match params with
      | [] => Some (Ok "")
      | _ :: _ => Some (Raise TypeError)
      end
  | String "%" (String "s" rest) =>
      match params with
      | [] => Some (Raise TypeError)
      | p :: params' =>
          match str_of p with
          | Some (Ok s) =>
              match format_percent str_of rest params' with
              | Some (Ok r) => Some (Ok (s +:+ r))
              | o => o
              end
          | o => o
          end
      end
  | String "%" (String "d" rest) =>
      match params with
      | [] => Some (Raise TypeError)
      | p :: params' =>
          match p with
          | VInt z =>
              match format_percent str_of rest params' with
              | Some (Ok r) => Some (Ok (pretty z +:+ r))
              | o => o
              end
          | VBool b =>
              match format_percent str_of rest params' with
              | Some (Ok r) => Some (Ok ((if b then "1" else "0") +:+ r))
              | o => o
              end
          | _ => Some (Raise TypeError)
          end
      end
  | String "%" (String "%" rest) =>
      match format_percent str_of rest params with
      | Some (Ok r) => Some (Ok (String "%" r))
      | o => o
      end
  | String "%" _ => Some (Raise ValueError)
  | String c rest =>
      match format_percent str_of rest params with
      | Some (Ok r) => Some (Ok (String c r))
      | o => o
      end
  end.

(** ** Serialization of query objects *)

Module _QueryDefinition.

(** [str(self.token) % self.parameters] when there are parameters, the
    token itself otherwise. *)
Definition __str__ (str_of : value → option (result string))
    (self : _QueryDefinition) : option (result string) :=
  match parameters self with
  | _ :: _ => format_percent str_of (token self) (parameters self)
  | [] => Some (Ok (token self))
  end.

End _QueryDefinition.

(** [[str(d) for d in ds]]: left to right, stopping at the first
    exception. *)
Fixpoint str_each (str_of : value → option (result string))
    (ds : list _QueryDefinition) : option (result (list string)) :=
  match ds with
  | [] => Some (Ok [])
  | d :: ds' =>
      match _QueryDefinition.__str__ str_of d with
      | Some (Ok s) =>
          match str_each str_of ds' with
          | Some (Ok ss) => Some (Ok (s :: ss))
          | o => o
          end
      | Some (Raise e) => Some (Raise e)
      | None => None
      end
  end.

(** [str(v)].  A query object is serialized through the objects its
    parameters refer to, which may refer back: [fuel] bounds the depth of
    references followed, and [None] is returned when it runs out or when an
    address is outside the heap.  The text of a container is the
    interpreter's ([container_str]). *)
Fixpoint str (container_str json_dumps : value → string)
    (fuel : nat) (h : heap) (v : value) : option (result string) :=
  match v with
  | VStr s => Some (Ok s)
  | VNone => Some (Ok "None")
  | VBool b => Some (Ok (if b then "True" else "False"))
  | VInt z => Some (Ok (pretty z))
  | VList _ | VTuple _ | VDict _ => Some (Ok (container_str v))
  | VQuad q => Some (Ok (CayleyQuad.__str__ json_dumps q))
  | VRef a =>
      match fuel with
      | O => None
      | S fuel' =>
          match h !! a with
          | None => None
          | Some q =>
              (* ".".join([str(d) for d in self.queryDeclarations]) *)
              match str_each (str container_str json_dumps fuel' h)
                             (queryDeclarations q) with
              | Some (Ok ss) => Some (Ok (join "." ss))
              | Some (Raise e) => Some (Raise e)
              | None => None
              end
          end
      end
  end.

(** ** class _GremlinQuery *)

(** [v.method(...)] where [method] is defined by the classes in [classes]:
    an [AttributeError] when [v] is no instance of one of them. *)
Definition send {A} (classes : list query_class) (v : value)
    (method : nat → Op A) : Op A :=
  λ h,
    match v with
    | VRef a =>
        match h !! a with
        | Some q =>
            if bool_decide (class_of q ∈ classes) then method a h
            else Some (Raise AttributeError, h)
        | None => None
        end
    | _ => Some (Raise AttributeError, h)
    end.

Module _GremlinQuery.

(** A new instance of class [c]: [self.queryDeclarations = []]. *)
Definition __init__ (c : query_class) : Op nat :=
  λ h, Some (Ok (List.length h), (h ++ [mkQuery c []])%list).

(** [self.queryDeclarations.append(_QueryDefinition(token, *parameters))] *)
Definition _put (self : nat) (tok : string) (params : list value)
  : Op unit :=
  λ h,
    match h !! self with
    | Some q =>
        Some (Ok (),
              <[self := mkQuery (class_of q)
                          (queryDeclarations q ++ [mkDef tok params])%list]> h)
    | None => None
    end.

End _GremlinQuery.

(** ** class _Path, with its subclasses _Vertex and _Morphism *)

Module _Path.
Import _GremlinQuery.

(** [_Vertex(parent)], [_Morphism(parent)]: a new object whose first
    declaration is the token [parent]. *)
Definition __init__ (c : query_class) (parent : string) : Op value :=
  self ← _GremlinQuery.__init__ c;
  _put self parent [];;
  mret (VRef self).

(** A dict is encoded by [json.dumps], a text is put between single
    quotes, [None] becomes [null]; any other value is returned as it is. *)
Definition _format_input_bounds (json_dumps : value → string) (v : value)
  : value :=
  match v with
  | VDict _ => VStr (json_dumps v)
  | VStr s => VStr ("'" +:+ s +:+ "'")
  | VNone => VStr "null"
  | _ => v
  end.

Definition _bounds (json_dumps : value → string) (self : nat)
    (method : string) (predicate tags : value) : Op value :=
  match predicate, tags with
  | VNone, VNone => _put self "%s()" [VStr method]
  | _, VNone =>
      _put self "%s(%s)"
        [VStr method; _format_input_bounds json_dumps predicate]
  | _, _ =>
      _put self "%s(%s, %s)"
        [VStr method; _format_input_bounds json_dumps predicate;
         _format_input_bounds json_dumps tags]
  end;;
  mret (VRef self).

(** [predicate] and [tags] default to [None]. *)
Definition Out (json_dumps : value → string) (self : nat)
    (predicate tags : value) : Op value :=
  _bounds json_dumps self "Out" predicate tags;;
  mret (VRef self).

Definition In (json_dumps : value → string) (self : nat)
    (predicate tags : value) : Op value :=
  _bounds json_dumps self "In" predicate tags;;
  mret (VRef self).

Definition Both (json_dumps : value → string) (self : nat)
    (predicate tags : value) : Op value :=
  _bounds json_dumps self "Both" predicate tags;;
  mret (VRef self).

Definition Tag (json_dumps : value → string) (self : nat)
    (tags : list value) : Op value :=
  _put self "Tag(%s)" [VStr (json_dumps (VTuple tags))];;
  mret (VRef self).

Definition Is (self : nat) (nodes : list value) : Op value :=
  joined ← lift (str_join "', '" nodes);
  _put self "Is('%s')" [VStr joined];;
  mret (VRef self).

Definition Has (self : nat) (predicate object : value) : Op value :=
  _put self "Has('%s', '%s')" [predicate; object];;
  mret (VRef self).

Definition Back (self : nat) (tag : value) : Op value :=
  _put self "Back('%s')" [tag];;
  mret (VRef self).

Definition Save (self : nat) (predicate tag : value) : Op value :=
  _put self "Save('%s', '%s')" [predicate; tag];;
  mret (VRef self).

Definition Intersect (self : nat) (query : value) : Op value :=
  λ h,
    if negb (isinstance h query _Vertex) && negb (is_str query)
    then raise (Exception "Invalid parameter in intersect query") h
    else (_put self "Intersect(%s)" [query];; mret (VRef self)) h.

Definition Union (self : nat) (query : value) : Op value :=
  λ h,
    if negb (isinstance h query _Vertex) && negb (is_str query)
    then raise (Exception "Invalid parameter in union query") h
    else (_put self "Union(%s)" [query];; mret (VRef self)) h.

Definition Follow (self : nat) (query : value) : Op value :=
  λ h,
    if negb (isinstance h query _Morphism) && negb (is_str query)
    then raise (Exception "Invalid parameter in follow query") h
    else (_put self "Follow(%s)" [query];; mret (VRef self)) h.

Definition FollowR (self : nat) (query : value) : Op value :=
  λ h,
    if negb (isinstance h query _Morphism) && negb (is_str query)
    then raise (Exception "Invalid parameter in followr query") h
    else (_put self "FollowR(%s)" [query];; mret (VRef self)) h.

(** [str(self)] *)
Definition build (container_str json_dumps : value → string)
    (fuel : nat) (self : nat) : Op string :=
  λ h,
    match str container_str json_dumps fuel h (VRef self) with
    | Some r => Some (r, h)
    | None => None
    end.

End _Path.

Module _Vertex.
Import _GremlinQuery.

Definition All (self : nat) : Op value :=
  _put self "All()" [];;
  mret (VRef self).

Definition GetLimit (self : nat) (limit : value) : Op value :=
  _put self "GetLimit(%d)" [limit];;
  mret (VRef self).

End _Vertex.

(** ** class GraphObject *)

Module GraphObject.

(** The loop of [V]: [index] counts the ids already seen, [l] is
    [len(node_ids)], [builder] the list built so far. *)
Fixpoint V_loop (l index : nat) (node_ids : list value)
    (builder : list string) : result (list string) :=
  match node_ids with
  | [] => Ok builder
  | node_id :: rest =>
      s ← format_s node_id;
      V_loop l (S index) rest
        (builder ++ [if decide (index = l - 1)
                     then "'" +:+ s +:+ "'"
                     else "'" +:+ s +:+ "',"])%list
  end.

(** The second definition of [V], the one the class keeps. *)
Definition V (node_ids : list value) : Op value :=
  builder ← lift (V_loop (List.length node_ids) 0 node_ids []);
  _Path.__init__ _Vertex ("g.V(" +:+ join "" builder +:+ ")").

Definition M : Op value :=
  _Path.__init__ _Morphism "g.Morphism()".

(** The second definition of [Vertex]: the tuple [node_ids] is passed
    to [V] as one argument. *)
Definition Vertex (node_ids : list value) : Op value :=
  if decide (List.length node_ids = 0) then V []
  else V [VTuple node_ids].

Definition Morphism : Op value := M.

End GraphObject.

(** A call of a method of [_Path], which both classes inherit. *)
Definition call_path {A} (v : value) (method : nat → Op A) : Op A :=
  send [_Vertex; _Morphism] v method.

(** ** Predicates the statements below use *)

(** Every character of a text passes the test. *)
Fixpoint all_chars (test : ascii → bool) (s : string) : bool :=
  match s with
  | EmptyString => true
  | String c s' => test c && all_chars test s'
  end.



(** A text or [None]: what [_clean] accepts. *)
Definition text_or_none (v : value) : bool :=
  match v with
  | VNone | VStr _ => true
  | _ => false
  end.

(** A value that is no reference to a query object. *)
Definition plain (v : value) : bool :=
  match v with
  | VRef _ => false
  | _ => true
  end.

(** A query object none of whose parameters refers to a query object. *)
Definition flat (q : _GremlinQuery) : bool :=
  forallb (λ d, forallb plain (parameters d)) (queryDeclarations q).

(** The object at [self] after one more declaration [d]. *)
Definition with_step (self : nat) (d : _QueryDefinition) (h : heap) : heap :=
  match h !! self with
  | Some q =>
      <[self := mkQuery (class_of q) (queryDeclarations q ++ [d])%list]> h
  | None => h
  end.

(** A call that, when it returns, returns [self] and has appended exactly
    one declaration to [self], every other object being left alone. *)
Definition appends_one_step (self : nat) (m : Op value) : Prop :=
  ∀ h r h', m h = Some (Ok r, h') →
    r = VRef self ∧ is_Some (h !! self) ∧ ∃ d, h' = with_step self d h.


(** The call [m] returns [self], whose serialization is then [s], a dot
    and [t]. *)
Definition extends_query (container_str json_dumps : value → string)
    (fuel self : nat) (h : heap) (s : string) (m : Op value) (t : string)
  : Prop :=
  ∃ h', m h = Some (Ok (VRef self), h') ∧
        _Path.build container_str json_dumps (S fuel) self h'
          = Some (Ok (s +:+ "." +:+ t), h').

(** ** Texts the statements below compare with *)

(** An id between single quotes. *)
Definition single_quoted (s : string) : string := "'" +:+ s +:+ "'".

(** What the loop of [V] builds: a comma after every id but the last. *)
Fixpoint id_items (ids : list string) : list string :=
  match ids with
  | [] => []
  | [i] => [single_quoted i]
  | i :: rest => (single_quoted i +:+ ",") :: id_items rest
  end.

(** The step [Is] would emit if the ids were one comma-separated run
    inside one pair of quotes. *)
Definition Is_single_run (nodes : list string) : string :=
  "Is('" +:+ join ", " nodes +:+ "')".

(** [Is] on the object [self] of [h] appends one step that serializes as
    [Is_single_run]. *)
Definition Is_emits_single_run (container_str json_dumps : value → string)
    (self : nat) (nodes : list string) (h : heap) : Prop :=
  ∃ q h' step,
    h !! self = Some q ∧
    _Path.Is self (VStr <$> nodes) h = Some (Ok (VRef self), h') ∧
    h' !! self = Some (mkQuery (class_of q) (queryDeclarations q ++ [step])%list) ∧
    _QueryDefinition.__str__ (str container_str json_dumps 1 h') step
      = Some (Ok (Is_single_run nodes)).

(** * Properties *)

(** ** Texts *)

Lemma lstrip_length s : (String.length (lstrip s) ≤ String.length s)%nat.
Proof. induction s as [|c s IH]; simpl; [lia|]. destruct (is_whitespace c); simpl; lia. Qed.

Lemma lstrip_fixed c s :
  lstrip (String c s) = String c s ↔ is_whitespace c = false.
Proof.
  simpl. destruct (is_whitespace c) eqn:Hc; split; try done.
  intros H. pose proof (lstrip_length s) as Hl. rewrite H in Hl. simpl in Hl. lia.
Qed.

Lemma rstrip_idemp s : rstrip (rstrip s) = rstrip s.
Proof.
  induction s as [|c s IH]; [done|]. simpl.
  destruct (rstrip s) as [|d r] eqn:Hr.
  - destruct (is_whitespace c) eqn:Hc; [done|]. simpl. by rewrite Hc.
  - simpl in *. by rewrite IH.
Qed.

Lemma lstrip_idemp s : lstrip (lstrip s) = lstrip s.
Proof.
  induction s as [|c s IH]; [done|]. simpl.
  destruct (is_whitespace c) eqn:Hc; [done|]. simpl. by rewrite Hc.
Qed.

Lemma lstrip_rstrip s : lstrip s = s → lstrip (rstrip s) = rstrip s.
Proof.
  destruct s as [|c s]; [done|]. intros Hc%lstrip_fixed. simpl.
  destruct (rstrip s); [rewrite Hc|]; simpl; by rewrite Hc.
Qed.

Lemma strip_trimmed s : trimmed (strip s).
Proof.
  split; unfold strip.
  - apply lstrip_rstrip, lstrip_idemp.
  - apply rstrip_idemp.
Qed.

Lemma trimmed_strip s : trimmed s → strip s = s.
Proof. intros [Hl Hr]. unfold strip. by rewrite Hl. Qed.

Section map_chars.
Variable f : ascii → ascii.
Hypothesis f_keeps : ∀ c, is_whitespace c = false → is_whitespace (f c) = false.

Lemma lstrip_map_chars s : lstrip s = s → lstrip (map_chars f s) = map_chars f s.
Proof.
  destruct s as [|c s]; [done|]. intros Hc%lstrip_fixed.
  cbn [map_chars]. apply lstrip_fixed. auto.
Qed.

Lemma rstrip_map_chars s : rstrip s = s → rstrip (map_chars f s) = map_chars f s.
Proof.
  induction s as [|c s IH]; [done|]. cbn [rstrip map_chars].
  destruct (rstrip s) as [|d r] eqn:Hr.
  - destruct (is_whitespace c) eqn:Hc; [done|].
    intros [= <-]. simpl. by rewrite f_keeps.
  - intros [= Hs]. rewrite IH by done. rewrite <- Hs. done.
Qed.

Lemma trimmed_map_chars s : trimmed s → trimmed (map_chars f s).
Proof. intros [??]. split; [by apply lstrip_map_chars | by apply rstrip_map_chars]. Qed.
End map_chars.

Lemma map_chars_compose f g s : map_chars f (map_chars g s) = map_chars (f ∘ g) s.
Proof. induction s; simpl; congruence. Qed.

Lemma map_chars_ext f g s : (∀ c, f c = g c) → map_chars f s = map_chars g s.
Proof. intros H. induction s; simpl; congruence. Qed.

Ltac each_char c :=
  destruct c as [[] [] [] [] [] [] [] []]; vm_compute; try reflexivity; try discriminate.

Local Abbreviation underscore :=
  (λ c : ascii, if decide (c = " "%char) then "_"%char else c).

Lemma underscore_keeps c : is_whitespace c = false → is_whitespace (underscore c) = false.
Proof. each_char c. Qed.

Lemma lower_char_keeps c : is_whitespace c = false → is_whitespace (lower_char c) = false.
Proof. each_char c. Qed.

Lemma underscore_canonical c : underscore (lower_char (underscore c)) = lower_char (underscore c).
Proof. each_char c. Qed.

Lemma lower_char_canonical c : lower_char (lower_char (underscore c)) = lower_char (underscore c).
Proof. each_char c. Qed.

Lemma clean_text_trimmed s : trimmed (CayleyQuad.clean_text s).
Proof.
  unfold CayleyQuad.clean_text, lower, replace.
  apply trimmed_map_chars; [apply lower_char_keeps|].
  apply trimmed_map_chars; [apply underscore_keeps|]. apply strip_trimmed.
Qed.

(** Cleaning a cleaned text changes nothing. *)
Lemma clean_text_idemp s :
  CayleyQuad.clean_text (CayleyQuad.clean_text s) = CayleyQuad.clean_text s.
Proof.
  unfold CayleyQuad.clean_text at 1.
  rewrite (trimmed_strip _ (clean_text_trimmed s)).
  unfold CayleyQuad.clean_text, lower, replace.
  rewrite !map_chars_compose. apply map_chars_ext. intros c.
  unfold compose. by rewrite underscore_canonical, lower_char_canonical.
Qed.

(** ** Quads *)

Lemma dict_get_None k d : dict_get k d = None ↔ k ∉ dict_keys d.
Proof.
  unfold dict_keys. induction d as [|[k' v] d IH]; simpl.
  - split; [intros _; apply not_elem_of_nil | done].
  - rewrite not_elem_of_cons. case_decide; subst.
    + split; [done | intros [? _]; done].
    + rewrite IH. split; [by split | by intros [_ ?]].
Qed.

Lemma _clean_canonical v a :
  CayleyQuad._clean v = Ok a → CayleyQuad.canonical a.
Proof.
  unfold CayleyQuad.canonical.
  destruct v; simpl; intros [= <-]; simpl; [done|].
  by rewrite clean_text_idemp.
Qed.

(** The constructor stores canonical attributes only. *)
Lemma init_canonical a b c d q :
  CayleyQuad.__init__ a b c d = Ok q →
  CayleyQuad.canonical (subject q) ∧ CayleyQuad.canonical (predicate q) ∧
  CayleyQuad.canonical (object q) ∧ CayleyQuad.canonical (label q).
Proof.
  unfold CayleyQuad.__init__.
  destruct (CayleyQuad._clean a) as [s|] eqn:Ha; [|done].
  destruct (CayleyQuad._clean b) as [p|] eqn:Hb; [|done].
  destruct (CayleyQuad._clean c) as [o|] eqn:Hc; [|done].
  destruct (CayleyQuad._clean d) as [l|] eqn:Hd; [|done].
  simpl. intros [= <-]. simpl. eauto 10 using _clean_canonical.
Qed.

Lemma from_dict_to_dict q :
  CayleyQuad.canonical (subject q) → CayleyQuad.canonical (predicate q) →
  CayleyQuad.canonical (object q) → CayleyQuad.canonical (label q) →
  CayleyQuad.from_dict (VDict (CayleyQuad.to_dict q)) = Ok q.
Proof.
  destruct q as [s p o l]. unfold CayleyQuad.canonical.
  cbn [subject predicate object label]. intros Hs Hp Ho Hl.
  unfold CayleyQuad.from_dict, CayleyQuad.call_with_keywords, CayleyQuad.to_dict.
  destruct l as [l|]; cbn [label subject predicate object app].
  - change (CayleyQuad.bind_keywords _)
      with (Ok (CayleyQuad.attr s, CayleyQuad.attr p, CayleyQuad.attr o,
                CayleyQuad.attr (Some l))).
    cbn [mbind result_bind]. unfold CayleyQuad.__init__.
    by rewrite Hs, Hp, Ho, Hl.
  - change (CayleyQuad.bind_keywords _)
      with (Ok (CayleyQuad.attr s, CayleyQuad.attr p, CayleyQuad.attr o,
                CayleyQuad.attr None)).
    cbn [mbind result_bind]. unfold CayleyQuad.__init__.
    by rewrite Hs, Hp, Ho.
Qed.

Lemma same_attributes_spec q1 q2 :
  CayleyQuad.same_attributes q1 q2 = bool_decide (q1 = q2).
Proof.
  destruct q1, q2. unfold CayleyQuad.same_attributes. simpl.
  repeat case_bool_decide; simpl; congruence.
Qed.

(** On two quads [__eq__] never raises and decides the equality of the
    four attributes: this is what lets a set of quads be a [gset]. *)
Lemma eq_quad_decides decode q1 q2 :
  CayleyQuad.__eq__ decode q1 (VQuad q2) = Ok (bool_decide (q1 = q2)).
Proof. simpl. by rewrite same_attributes_spec. Qed.

(** The order of the coercions in [__eq__]: [from_dict] first, and
    [from_json] only when [from_dict] raised [NotAValidQuadError]. *)
Lemma eq_coerces_record_first decode q other o :
  (∀ q', other ≠ VQuad q') →
  CayleyQuad.from_dict other = Ok o →
  CayleyQuad.__eq__ decode q other = Ok (CayleyQuad.same_attributes q o).
Proof. intros Hq Hd. destruct other; simpl in *; rewrite ?Hd; done. Qed.

Lemma eq_coerces_text_second decode q other :
  (∀ q', other ≠ VQuad q') →
  CayleyQuad.from_dict other = Raise NotAValidQuadError →
  CayleyQuad.__eq__ decode q other =
    match CayleyQuad.from_json decode other with
    | Ok o => Ok (CayleyQuad.same_attributes q o)
    | Raise NotAValidQuadError => Ok false
    | Raise e => Raise e
    end.
Proof.
  intros Hq Hd. destruct other; try (by destruct (Hq q0));
    unfold CayleyQuad.__eq__; by rewrite Hd.
Qed.

Lemma from_dict_not_dict v :
  (∀ d, v ≠ VDict d) → CayleyQuad.from_dict v = Raise NotAValidQuadError.
Proof. intros H. destruct v; try done. by destruct (H d). Qed.

Lemma from_dict_missing d k :
  k ∈ ["subject"; "predicate"; "object"] → k ∉ dict_keys d →
  CayleyQuad.from_dict (VDict d) = Raise NotAValidQuadError.
Proof.
  intros Hk Hd%dict_get_None.
  unfold CayleyQuad.from_dict, CayleyQuad.call_with_keywords,
    CayleyQuad.bind_keywords.
  destruct (forallb _ _); [|done].
  rewrite !elem_of_cons, elem_of_nil in Hk.
  destruct Hk as [->|[->|[->|[]]]]; rewrite Hd;
    repeat (destruct (dict_get _ d)); done.
Qed.

Lemma from_dict_unexpected d k :
  k ∈ dict_keys d → k ∉ CayleyQuad.accepted →
  CayleyQuad.from_dict (VDict d) = Raise NotAValidQuadError.
Proof.
  intros Hk Hn.
  unfold CayleyQuad.from_dict, CayleyQuad.call_with_keywords,
    CayleyQuad.bind_keywords.
  destruct (forallb _ _) eqn:Hall; [|done].
  rewrite forallb_forall in Hall.
  apply list_elem_of_In, Hall, bool_decide_eq_true in Hk. done.
Qed.

Lemma from_json_not_json decode s :
  decode s = None →
  CayleyQuad.from_json decode (VStr s) = Raise NotAValidQuadError.
Proof. intros H. unfold CayleyQuad.from_json. simpl. by rewrite H. Qed.

Lemma from_json_not_record decode s v :
  decode s = Some v → (∀ d, v ≠ VDict d) →
  CayleyQuad.from_json decode (VStr s) = Raise NotAValidQuadError.
Proof.
  intros H Hv. unfold CayleyQuad.from_json. simpl. rewrite H. simpl.
  by rewrite from_dict_not_dict.
Qed.

(** C6.  For every quad [q] that the constructor builds,
    [CayleyQuad.from_dict(q.to_dict())] succeeds and the quad it returns
    is equal to [q]; [to_dict] has no key [label] when the label is [None]
    and holds the label under that key otherwise. *)
Theorem record_round_trip (a b c d : value) (q : CayleyQuad) :
  CayleyQuad.__init__ a b c d = Ok q →
  ∃ q',
    CayleyQuad.from_dict (VDict (CayleyQuad.to_dict q)) = Ok q' ∧
    (∀ decode, CayleyQuad.__eq__ decode q' (VQuad q) = Ok true) ∧
    (label q = None → "label" ∉ dict_keys (CayleyQuad.to_dict q)) ∧
    (∀ l, label q = Some l →
          dict_get "label" (CayleyQuad.to_dict q) = Some (VStr l)).
Proof.
  intros (Hs & Hp & Ho & Hl)%init_canonical. exists q. split_and!.
  - by apply from_dict_to_dict.
  - intros decode. rewrite eq_quad_decides. by rewrite bool_decide_eq_true_2.
  - intros Hn. unfold CayleyQuad.to_dict. rewrite Hn. apply dict_get_None. done.
  - intros l Hn. unfold CayleyQuad.to_dict. rewrite Hn. done.
Qed.

Lemma record_round_trip_witness :
  let q := mkQuad (Some "alice_smith") (Some "follows") (Some "bob") None in
  CayleyQuad.__init__ (VStr "  Alice Smith ") (VStr "Follows") (VStr "bob") VNone
    = Ok q ∧
  ∃ q',
    CayleyQuad.from_dict (VDict (CayleyQuad.to_dict q)) = Ok q' ∧
    (∀ decode, CayleyQuad.__eq__ decode q' (VQuad q) = Ok true) ∧
    (label q = None → "label" ∉ dict_keys (CayleyQuad.to_dict q)) ∧
    (∀ l, label q = Some l →
          dict_get "label" (CayleyQuad.to_dict q) = Some (VStr l)).
Proof.
  split; [reflexivity|].
  exact (record_round_trip (VStr "  Alice Smith ") (VStr "Follows") (VStr "bob")
           VNone _ eq_refl).
Defined.

(** C5.  [__hash__] is the sum of the hashes of subject, predicate, object
    and label weighted by 3, 5, 7 and 11; a label that is [None]
    contributes 11 times the hash of [None], one fixed number; two quads
    with the same four attributes, and so two quads that [__eq__] holds
    equal, have the same hash. *)
Theorem hash_weighted_sum (str_hash : string → Z) (none_hash : Z) :
  (∀ q,
     CayleyQuad.__hash__ str_hash none_hash q =
     (3 * CayleyQuad.attr_hash str_hash none_hash (subject q) +
      5 * CayleyQuad.attr_hash str_hash none_hash (predicate q) +
      7 * CayleyQuad.attr_hash str_hash none_hash (object q) +
      11 * CayleyQuad.attr_hash str_hash none_hash (label q))%Z) ∧
  (∀ s p o l,
     CayleyQuad.__hash__ str_hash none_hash
       (mkQuad (Some s) (Some p) (Some o) (Some l)) =
     (3 * str_hash s + 5 * str_hash p + 7 * str_hash o + 11 * str_hash l)%Z) ∧
  (∀ s p o,
     CayleyQuad.__hash__ str_hash none_hash
       (mkQuad (Some s) (Some p) (Some o) None) =
     (3 * str_hash s + 5 * str_hash p + 7 * str_hash o + 11 * none_hash)%Z) ∧
  (∀ q1 q2,
     subject q1 = subject q2 → predicate q1 = predicate q2 →
     object q1 = object q2 → label q1 = label q2 →
     CayleyQuad.__hash__ str_hash none_hash q1 =
     CayleyQuad.__hash__ str_hash none_hash q2) ∧
  (∀ decode q1 q2,
     CayleyQuad.__eq__ decode q1 (VQuad q2) = Ok true →
     CayleyQuad.__hash__ str_hash none_hash q1 =
     CayleyQuad.__hash__ str_hash none_hash q2).
Proof.
  split_and!; try done.
  - intros q1 q2 Hs Hp Ho Hl. unfold CayleyQuad.__hash__.
    by rewrite Hs, Hp, Ho, Hl.
  - intros decode q1 q2. rewrite eq_quad_decides.
    intros [= Heq%bool_decide_eq_true]. by subst.
Qed.

Lemma hash_weighted_sum_witness :
  let str_hash := λ s : string, Z.of_nat (String.length s) in
  let q1 := mkQuad (Some "alice") (Some "follows") (Some "bob") None in
  let q2 := mkQuad (Some "alice") (Some "follows") (Some "bob") None in
  CayleyQuad.__hash__ str_hash 99 q1 = CayleyQuad.__hash__ str_hash 99 q2 ∧
  CayleyQuad.__hash__ str_hash 99 q1 = (3 * 5 + 5 * 7 + 7 * 3 + 11 * 99)%Z.
Proof.
  pose proof (hash_weighted_sum (λ s : string, Z.of_nat (String.length s)) 99)
    as (_ & _ & Hnone & Hsame & _).
  split.
  - apply Hsame; reflexivity.
  - apply (Hnone "alice" "follows" "bob").
Defined.

(** C9.  [from_dict] raises [NotAValidQuadError] on every record that
    lacks one of the keys subject, predicate, object, and on every record
    with a key that is no parameter of the constructor; [from_json] raises
    it on every text that is no JSON document (the decoder's [ValueError]
    is replaced) and on every document that is no object; with a decoder
    that rejects the text [{not json], [from_json] raises it on that
    text. *)
Theorem invalid_quad_errors (decode : string → option value) :
  decode "{not json" = None →
  (∀ d k, k ∈ ["subject"; "predicate"; "object"] → k ∉ dict_keys d →
          CayleyQuad.from_dict (VDict d) = Raise NotAValidQuadError) ∧
  (∀ d k, k ∈ dict_keys d → k ∉ CayleyQuad.accepted →
          CayleyQuad.from_dict (VDict d) = Raise NotAValidQuadError) ∧
  (∀ s, decode s = None →
        CayleyQuad.from_json decode (VStr s) = Raise NotAValidQuadError) ∧
  (∀ s v, decode s = Some v → (∀ d, v ≠ VDict d) →
          CayleyQuad.from_json decode (VStr s) = Raise NotAValidQuadError) ∧
  CayleyQuad.from_json decode (VStr "{not json") = Raise NotAValidQuadError.
Proof.
  intros Hnot. split_and!.
  - apply from_dict_missing.
  - apply from_dict_unexpected.
  - apply from_json_not_json.
  - apply from_json_not_record.
  - by apply from_json_not_json.
Qed.

Lemma invalid_quad_errors_witness :
  Json.decode "{not json" = None ∧
  CayleyQuad.from_json Json.decode (VStr "{not json") = Raise NotAValidQuadError ∧
  CayleyQuad.from_json Json.decode (VStr "[1, 2]") = Raise NotAValidQuadError ∧
  CayleyQuad.from_dict (VDict [("subject", VStr "a"); ("object", VStr "c")])
    = Raise NotAValidQuadError ∧
  CayleyQuad.from_dict
    (VDict [("subject", VStr "a"); ("predicate", VStr "b");
            ("object", VStr "c"); ("graph", VStr "g")])
    = Raise NotAValidQuadError.
Proof.
  split; [reflexivity|].
  destruct (invalid_quad_errors Json.decode eq_refl)
    as (Hmiss & Hunexp & _ & Hnorec & Htext).
  split_and!.
  - exact Htext.
  - apply (Hnorec "[1, 2]" (VList [VInt 1; VInt 2])); [reflexivity | discriminate].
  - apply (Hmiss _ "predicate"); compute_done.
  - apply (Hunexp _ "graph"); compute_done.
Defined.

(** A record that [from_dict] rejects and that is no text makes
    [from_json], and with it [__eq__], raise the [TypeError] of
    [json.loads]. *)
Lemma eq_rejected_record_raises decode q d :
  CayleyQuad.from_dict (VDict d) = Raise NotAValidQuadError →
  CayleyQuad.__eq__ decode q (VDict d) = Raise TypeError.
Proof.
  intros Hd. rewrite eq_coerces_text_second by done. reflexivity.
Qed.

(** When both coercions raise [NotAValidQuadError], [__eq__] is [False]. *)
Lemma eq_false_when_both_invalid decode q other :
  (∀ q', other ≠ VQuad q') →
  CayleyQuad.from_dict other = Raise NotAValidQuadError →
  CayleyQuad.from_json decode other = Raise NotAValidQuadError →
  CayleyQuad.__eq__ decode q other = Ok false.
Proof. intros Hq Hd Hj. rewrite eq_coerces_text_second by done. by rewrite Hj. Qed.

(** C2.  At the record [{'subject': 'a'}], which lacks required keys,
    [from_dict] raises [NotAValidQuadError], then [from_json] hands the
    record to [json.loads], whose [TypeError] its handler for [ValueError]
    lets through: [__eq__] raises [TypeError] where it should return
    [False].  [None] takes the same path.  A record with a field that is
    no text makes [__eq__] raise the [AttributeError] of [_clean]. *)
Theorem eq_incomplete_record_raises (decode : string → option value) :
  let q := mkQuad (Some "a") (Some "b") (Some "c") None in
  CayleyQuad.from_dict (VDict [("subject", VStr "a")])
    = Raise NotAValidQuadError ∧
  CayleyQuad.from_json decode (VDict [("subject", VStr "a")])
    = Raise TypeError ∧
  CayleyQuad.__eq__ decode q (VDict [("subject", VStr "a")])
    = Raise TypeError ∧
  CayleyQuad.__eq__ decode q VNone = Raise TypeError ∧
  CayleyQuad.__eq__ decode q
    (VDict [("subject", VInt 1); ("predicate", VStr "b"); ("object", VStr "c")])
    = Raise AttributeError.
Proof. by split_and!. Qed.

(** ** Sets of quads *)

Lemma add_quads_on_set s qs :
  CayleyQuads.add_quads (mkQuads (PySet s)) qs = (Ok (), mkQuads (PySet s)).
Proof. reflexivity. Qed.

Lemma add_quads_on_list l qs :
  CayleyQuads.add_quads (mkQuads (PyList l)) qs
  = (Raise TypeError, mkQuads (PyList l)).
Proof. reflexivity. Qed.

(** On a set, adding a quad that [__eq__] holds equal to one just added
    changes nothing; starting from the empty set, one element is held. *)
Lemma add_quad_twice_on_set decode s q1 q2 :
  CayleyQuad.__eq__ decode q1 (VQuad q2) = Ok true →
  let S1 := snd (CayleyQuads.add_quad (mkQuads (PySet s)) q1) in
  let S2 := snd (CayleyQuads.add_quad S1 q2) in
  S2 = S1 ∧ (s = ∅ → size (CayleyQuads.content S2) = 1).
Proof.
  rewrite eq_quad_decides. intros [= ->%bool_decide_eq_true]. simpl.
  assert (Hidem : s ∪ {[q2]} ∪ {[q2]} = s ∪ {[q2]}).
  { by rewrite <- (assoc_L (∪)), union_idemp_L. }
  split.
  - by rewrite Hidem.
  - intros ->. unfold CayleyQuads.content. cbn [quads].
    rewrite Hidem, (left_id_L ∅ (∪)). apply size_singleton.
Qed.

(** C1.  On the set that [from_list] builds from the one record
    (a, b, c), [add_quads] with the quad (x, y, z) returns normally and
    leaves the set as it was: the union is computed and dropped, the new
    quad is not held and the content is not the union. *)
Theorem add_quads_drops_union :
  let q1 := mkQuad (Some "a") (Some "b") (Some "c") None in
  let q2 := mkQuad (Some "x") (Some "y") (Some "z") None in
  let S := mkQuads (PySet (list_to_set [q1])) in
  CayleyQuads.from_list
    [VDict [("subject", VStr "a"); ("predicate", VStr "b");
            ("object", VStr "c")]] = Ok S ∧
  CayleyQuads.add_quads S [q2] = (Ok (), S) ∧
  (q2 ∉ CayleyQuads.content (snd (CayleyQuads.add_quads S [q2]))) ∧
  CayleyQuads.content (snd (CayleyQuads.add_quads S [q2]))
    ≠ CayleyQuads.content S ∪ list_to_set [q2].
Proof.
  intros q1 q2 S.
  assert (Hnot : q2 ∉ CayleyQuads.content (snd (CayleyQuads.add_quads S [q2]))).
  { change (q2 ∉ (list_to_set [q1] : gset CayleyQuad)).
    rewrite elem_of_list_to_set, list_elem_of_singleton. discriminate. }
  split_and!; [done..|].
  intros Heq. apply Hnot. rewrite Heq.
  apply elem_of_union_r, elem_of_list_to_set, list_elem_of_singleton. done.
Qed.

(** C4.  A [CayleyQuads] built without argument holds a list, and a list
    has no [add]: the first [add_quad] raises [AttributeError] and nothing
    is added. *)
Theorem add_quad_fresh_raises (q : CayleyQuad) :
  CayleyQuads.__init__ None = mkQuads (PyList []) ∧
  CayleyQuads.add_quad (CayleyQuads.__init__ None) q
  = (Raise AttributeError, CayleyQuads.__init__ None).
Proof. done. Qed.

(** ** Query objects *)

Lemma string_app_assoc (a b c : string) : (a +:+ b) +:+ c = a +:+ (b +:+ c).
Proof. induction a as [|x a IH]; [done|]. exact (f_equal (String x) IH). Qed.

Lemma V_loop_texts ids : ∀ index builder,
  GraphObject.V_loop (index + List.length ids) index (VStr <$> ids) builder
  = Ok (builder ++ id_items ids)%list.
Proof.
  induction ids as [|i rest IH]; intros index builder.
  - simpl. by rewrite app_nil_r.
  - cbn [fmap list_fmap GraphObject.V_loop format_s mbind result_bind].
    replace (index + List.length (i :: rest)) with (S index + List.length rest)
      by (simpl; lia).
    rewrite IH. rewrite <- app_assoc. do 2 f_equal.
    destruct rest as [|j rest]; simpl.
    + case_decide; [done|lia].
    + case_decide; [lia|]. unfold single_quoted.
      by rewrite !string_app_assoc.
Qed.

Lemma join_id_items ids : join "" (id_items ids) = join "," (single_quoted <$> ids).
Proof.
  induction ids as [|i [|j rest] IH]; [done..|].
  change (id_items (i :: j :: rest)) with ((single_quoted i +:+ ",") :: id_items (j :: rest)).
  change (single_quoted <$> i :: j :: rest) with (single_quoted i :: (single_quoted <$> j :: rest)).
  assert (Hne : ∀ (x : string) y l, join "" (x :: id_items (y :: l)) = x +:+ join "" (id_items (y :: l))).
  { intros x y [|??]; done. }
  rewrite Hne, IH. cbn [join fmap list_fmap]. by rewrite string_app_assoc.
Qed.

Lemma V_text ids h :
  GraphObject.V (VStr <$> ids) h =
  Some (Ok (VRef (List.length h)),
        (h ++ [mkQuery _Vertex [mkDef ("g.V(" +:+ join "," (single_quoted <$> ids) +:+ ")") []]])%list).
Proof.
  unfold GraphObject.V.
  pose proof (V_loop_texts ids 0 []) as Hl. simpl in Hl.
  rewrite length_fmap. 
  rewrite Hl. unfold mbind at 1, Op_bind at 1, lift. cbn beta iota.
  rewrite join_id_items.
  unfold _Path.__init__, _GremlinQuery.__init__, _GremlinQuery._put.
  unfold mbind, mret, Op_bind, Op_ret. cbn beta iota.
  rewrite lookup_app_r by lia. rewrite Nat.sub_diag. cbn [lookup list_lookup].
  do 2 f_equal.
  rewrite insert_app_r_alt by lia. rewrite Nat.sub_diag. done.
Qed.

Lemma build_root cs jd fuel h c tok :
  _Path.build cs jd (S fuel) (List.length h) (h ++ [mkQuery c [mkDef tok []]])%list
  = Some (Ok tok, (h ++ [mkQuery c [mkDef tok []]])%list).
Proof.
  unfold _Path.build. cbn [str].
  rewrite lookup_app_r by lia. rewrite Nat.sub_diag. done.
Qed.

Lemma str_text cs jd fuel h s : str cs jd fuel h (VStr s) = Some (Ok s).
Proof. by destruct fuel. Qed.

Lemma join_values_texts nodes : join_values (VStr <$> nodes) = Ok nodes.
Proof.
  induction nodes as [|n nodes IH]; [done|].
  cbn [fmap list_fmap join_values]. change (list_fmap _ _ VStr nodes) with (VStr <$> nodes).
  by rewrite IH.
Qed.

(** The ids joined by [', '] and put between quotes are the ids, each
    between its own quotes, joined by a comma and a space. *)
Lemma quoted_join nodes :
  nodes ≠ [] →
  "'" +:+ join "', '" nodes +:+ "'" = join ", " (single_quoted <$> nodes).
Proof.
  induction nodes as [|a nodes IH]; [done|]. intros _.
  destruct nodes as [|b rest]; [done|]. specialize (IH ltac:(done)).
  change (join "', '" (a :: b :: rest))
    with (a +:+ "', '" +:+ join "', '" (b :: rest)).
  change (join ", " (single_quoted <$> a :: b :: rest))
    with (single_quoted a +:+ ", " +:+ join ", " (single_quoted <$> b :: rest)).
  rewrite <- IH. unfold single_quoted. rewrite !string_app_assoc. reflexivity.
Qed.

Lemma Is_step_text str_of j :
  str_of (VStr j) = Some (Ok j) →
  _QueryDefinition.__str__ str_of (mkDef "Is('%s')" [VStr j])
  = Some (Ok ("Is('" +:+ j +:+ "')")).
Proof.
  intros Hj. unfold _QueryDefinition.__str__. cbn [parameters token].
  cbn [format_percent]. rewrite Hj. reflexivity.
Qed.

Lemma put_appends self tok params h q :
  h !! self = Some q →
  _GremlinQuery._put self tok params h =
  Some (Ok (), <[self := mkQuery (class_of q)
                           (queryDeclarations q ++ [mkDef tok params])%list]> h).
Proof. intros Hq. unfold _GremlinQuery._put. by rewrite Hq. Qed.

(** C7.  [V] on text ids allocates a [_Vertex] whose one declaration is
    the token [g.V(] ... [)] with each id between single quotes, the ids
    joined by commas; the token is [g.V()] without ids; the object
    serializes as that token.  [g.V().All().build()] is [g.V().All()] and
    [g.V("alice", "bob").build()] is [g.V('alice','bob')]. *)
Theorem V_root_step (container_str json_dumps : value → string)
    (ids : list string) (h : heap) (fuel : nat) :
  let root := "g.V(" +:+ join "," (single_quoted <$> ids) +:+ ")" in
  let h' := (h ++ [mkQuery _Vertex [mkDef root []]])%list in
  GraphObject.V (VStr <$> ids) h = Some (Ok (VRef (List.length h)), h') ∧
  _Path.build container_str json_dumps (S fuel) (List.length h) h'
    = Some (Ok root, h') ∧
  GraphObject.V [] h
    = Some (Ok (VRef (List.length h)),
            (h ++ [mkQuery _Vertex [mkDef "g.V()" []]])%list) ∧
  fst <$> (c ← GraphObject.V [];
           c ← send [_Vertex] c _Vertex.All;
           call_path c (_Path.build container_str json_dumps (S fuel))) []
    = Some (Ok "g.V().All()") ∧
  fst <$> (c ← GraphObject.V [VStr "alice"; VStr "bob"];
           call_path c (_Path.build container_str json_dumps (S fuel))) []
    = Some (Ok "g.V('alice','bob')").
Proof.
  intros root h'. split_and!.
  - apply V_text.
  - apply build_root.
  - apply (V_text []).
  - reflexivity.
  - reflexivity.
Qed.

(** C8, as the code has it.  [Is] on text ids appends exactly one step,
    the template [Is('%s')] with one parameter: the ids joined by the four
    characters quote, comma, space, quote.  The step serializes as [Is('],
    that text, [')]: without ids it is [Is('')], with ids each id stands
    between its own pair of quotes, the quoted ids separated by a comma and
    a space. *)
Theorem Is_appends_one_step (container_str json_dumps : value → string)
    (fuel : nat) (self : nat) (nodes : list string) (h : heap)
    (q : _GremlinQuery) :
  h !! self = Some q →
  let step := mkDef "Is('%s')" [VStr (join "', '" nodes)] in
  let h' := <[self := mkQuery (class_of q)
                        (queryDeclarations q ++ [step])%list]> h in
  _Path.Is self (VStr <$> nodes) h = Some (Ok (VRef self), h') ∧
  h' !! self = Some (mkQuery (class_of q) (queryDeclarations q ++ [step])%list) ∧
  _QueryDefinition.__str__ (str container_str json_dumps fuel h') step
    = Some (Ok ("Is('" +:+ join "', '" nodes +:+ "')")) ∧
  (nodes = [] → "Is('" +:+ join "', '" nodes +:+ "')" = "Is('')") ∧
  (nodes ≠ [] →
   "Is('" +:+ join "', '" nodes +:+ "')"
   = "Is(" +:+ join ", " (single_quoted <$> nodes) +:+ ")").
Proof.
  intros Hq step h'. split_and!.
  - unfold _Path.Is, str_join. rewrite join_values_texts.
    unfold mbind, mret, Op_bind, Op_ret, lift, result_bind. cbn beta iota.
    by rewrite (put_appends _ _ _ _ _ Hq).
  - apply list_lookup_insert_eq. by eapply lookup_lt_Some.
  - apply Is_step_text, str_text.
  - by intros ->.
  - intros Hne. rewrite <- (quoted_join _ Hne).
    rewrite !string_app_assoc. reflexivity.
Qed.

Lemma Is_appends_one_step_witness :
  let h := [mkQuery _Vertex [mkDef "g.V()" []]] in
  let step := mkDef "Is('%s')" [VStr "a', 'b"] in
  let h' := [mkQuery _Vertex [mkDef "g.V()" []; step]] in
  h !! 0 = Some (mkQuery _Vertex [mkDef "g.V()" []]) ∧
  _Path.Is 0 [VStr "a"; VStr "b"] h = Some (Ok (VRef 0), h') ∧
  _QueryDefinition.__str__ (str (λ _, "") (λ _, "") 1 h') step
    = Some (Ok "Is('a', 'b')").
Proof.
  split; [reflexivity|].
  destruct (Is_appends_one_step (λ _, "") (λ _, "") 1 0 ["a"; "b"]
              [mkQuery _Vertex [mkDef "g.V()" []]] _ eq_refl)
    as (HIs & _ & Hstr & _).
  split; [exact HIs | exact Hstr].
Defined.

(** C8, as stated, fails: on the chain [g.V()], [Is("a", "b")] does not
    append a step that serializes as the one quoted run [Is('a, b')]. *)
Lemma Is_not_single_run :
  ¬ Is_emits_single_run (λ _, "") (λ _, "") 0 ["a"; "b"]
      [mkQuery _Vertex [mkDef "g.V()" []]].
Proof.
  intros (q & h' & step & Hq & HIs & Hh' & Hstr).
  injection Hq as <-. injection HIs as <-.
  injection Hh' as <-. vm_compute in Hstr. discriminate.
Qed.

(** C3.  An argument that is no text and no instance of the class the
    method accepts ([_Vertex] for [Intersect] and [Union], [_Morphism] for
    [Follow] and [FollowR]) makes the method raise its exception
    [Invalid parameter in ... query]; the heap after the call is the heap
    before it, so no step was appended and every object serializes as
    before. *)
Theorem rejected_argument_leaves_chain (self : nat) (x : value) (h : heap) :
  is_str x = false →
  (isinstance h x _Vertex = false →
   _Path.Intersect self x h
     = Some (Raise (Exception "Invalid parameter in intersect query"), h) ∧
   _Path.Union self x h
     = Some (Raise (Exception "Invalid parameter in union query"), h)) ∧
  (isinstance h x _Morphism = false →
   _Path.Follow self x h
     = Some (Raise (Exception "Invalid parameter in follow query"), h) ∧
   _Path.FollowR self x h
     = Some (Raise (Exception "Invalid parameter in followr query"), h)).
Proof.
  intros Hs. split; intros Hi.
  - unfold _Path.Intersect, _Path.Union. by rewrite Hi, Hs.
  - unfold _Path.Follow, _Path.FollowR. by rewrite Hi, Hs.
Qed.

Lemma rejected_argument_leaves_chain_witness :
  let h := [mkQuery _Vertex [mkDef "g.V('alice')" []];
            mkQuery _Morphism [mkDef "g.Morphism()" []]] in
  let x := VDict [("tag", VStr "t")] in
  (_Path.Intersect 0 x h
     = Some (Raise (Exception "Invalid parameter in intersect query"), h) ∧
   _Path.Union 0 x h
     = Some (Raise (Exception "Invalid parameter in union query"), h)) ∧
  (_Path.Follow 0 x h
     = Some (Raise (Exception "Invalid parameter in follow query"), h) ∧
   _Path.FollowR 0 x h
     = Some (Raise (Exception "Invalid parameter in followr query"), h)).
Proof.
  destruct (rejected_argument_leaves_chain 0 (VDict [("tag", VStr "t")])
              [mkQuery _Vertex [mkDef "g.V('alice')" []];
               mkQuery _Morphism [mkDef "g.Morphism()" []]] eq_refl)
    as [Hv Hm].
  split; [apply Hv | apply Hm]; reflexivity.
Defined.

(** C10.  [Vertex] without ids is [V] without ids.  With one id or more,
    [Vertex] calls [V] with one argument, the tuple of the ids; formatting
    that tuple with the specifier [s] raises [TypeError], and no object is
    allocated.  [V] on the same text ids returns a chain, so the two calls
    differ. *)
Theorem Vertex_forwards_tuple (ids : list value) (h : heap) :
  GraphObject.Vertex [] h = GraphObject.V [] h ∧
  (ids ≠ [] →
   GraphObject.Vertex ids h = GraphObject.V [VTuple ids] h ∧
   GraphObject.Vertex ids h = Some (Raise TypeError, h)) ∧
  (∀ texts : list string,
     texts ≠ [] →
     (∃ c h', GraphObject.V (VStr <$> texts) h = Some (Ok c, h')) ∧
     GraphObject.Vertex (VStr <$> texts) h ≠ GraphObject.V (VStr <$> texts) h).
Proof.
  split_and!.
  - reflexivity.
  - intros Hne. destruct ids as [|i ids]; [done|]. by split.
  - intros texts Hne. rewrite V_text. split; [eauto|].
    destruct texts as [|t texts]; done.
Qed.

Lemma Vertex_forwards_tuple_witness :
  GraphObject.Vertex [VStr "alice"; VStr "bob"] []
    = GraphObject.V [VTuple [VStr "alice"; VStr "bob"]] [] ∧
  GraphObject.Vertex [VStr "alice"; VStr "bob"] [] = Some (Raise TypeError, []).
Proof.
  destruct (Vertex_forwards_tuple [VStr "alice"; VStr "bob"] [])
    as (_ & Hfail & _).
  apply Hfail. discriminate.
Defined.

(** ** The builder at work *)

Section examples.
Variables container_str json_dumps : value → string.

Example out_follows :
  fst <$> (c ← GraphObject.V [VStr "alice"];
           c ← call_path c (λ a, _Path.Out json_dumps a (VStr "follows") VNone);
           call_path c (_Path.build container_str json_dumps 3)) []
  = Some (Ok "g.V('alice').Out('follows')").
Proof. reflexivity. Qed.

Example is_two_ids :
  fst <$> (c ← GraphObject.V [];
           c ← call_path c (λ a, _Path.Is a [VStr "a"; VStr "b"]);
           call_path c (_Path.build container_str json_dumps 3)) []
  = Some (Ok "g.V().Is('a', 'b')").
Proof. reflexivity. Qed.

(** A morphism passed to [Follow] is kept by reference: a step added to it
    afterwards shows in the chain that follows it. *)
Example follow_by_reference :
  fst <$> (m ← GraphObject.M;
           c ← GraphObject.V [];
           c ← call_path c (λ a, _Path.Follow a m);
           _ ← call_path m (λ a, _Path.Back a (VStr "t"));
           call_path c (_Path.build container_str json_dumps 3)) []
  = Some (Ok "g.V().Follow(g.Morphism().Back('t'))").
Proof. reflexivity. Qed.

(** A morphism is no argument for [Intersect], a vertex chain none for
    [Follow]; the chain keeps its one step. *)
Example intersect_morphism :
  (m ← GraphObject.M;
   c ← GraphObject.V [];
   call_path c (λ a, _Path.Intersect a m)) []
  = Some (Raise (Exception "Invalid parameter in intersect query"),
          [mkQuery _Morphism [mkDef "g.Morphism()" []];
           mkQuery _Vertex [mkDef "g.V()" []]]).
Proof. reflexivity. Qed.

(** [All] is a method of [_Vertex] only. *)
Example all_on_morphism :
  fst <$> (m ← GraphObject.M; send [_Vertex] m _Vertex.All) []
  = Some (Raise AttributeError).
Proof. reflexivity. Qed.

End examples.

(** * Further properties of the library *)

(** ** Canonical texts *)






Lemma all_chars_and (P Q : ascii → bool) s :
  all_chars P s = true → all_chars Q s = true →
  all_chars (λ c, P c && Q c) s = true.
Proof.
  induction s as [|c s IH]; simpl; [done|].
  intros [-> ?]%andb_true_iff [-> ?]%andb_true_iff. simpl. by apply IH.
Qed.






(** ** More on quads *)

Lemma _clean_Ok v : text_or_none v = true → ∃ a, CayleyQuad._clean v = Ok a.
Proof. destruct v; try done; simpl; eauto. Qed.

Lemma _clean_Raise v : text_or_none v = false → CayleyQuad._clean v = Raise AttributeError.
Proof. by destruct v. Qed.


Lemma init_outcome a b c d :
  (∃ q, CayleyQuad.__init__ a b c d = Ok q) ∨
  CayleyQuad.__init__ a b c d = Raise AttributeError.
Proof.
  unfold CayleyQuad.__init__.
  destruct (text_or_none a) eqn:Ha; [|right; by rewrite (_clean_Raise _ Ha)].
  destruct (_clean_Ok _ Ha) as [? ->]. simpl.
  destruct (text_or_none b) eqn:Hb; [|right; by rewrite (_clean_Raise _ Hb)].
  destruct (_clean_Ok _ Hb) as [? ->]. simpl.
  destruct (text_or_none c) eqn:Hc; [|right; by rewrite (_clean_Raise _ Hc)].
  destruct (_clean_Ok _ Hc) as [? ->]. simpl.
  destruct (text_or_none d) eqn:Hd; [|right; by rewrite (_clean_Raise _ Hd)].
  destruct (_clean_Ok _ Hd) as [? ->]. simpl. eauto.
Qed.

Lemma from_dict_outcome v :
  (∃ q, CayleyQuad.from_dict v = Ok q) ∨
  CayleyQuad.from_dict v = Raise NotAValidQuadError ∨
  CayleyQuad.from_dict v = Raise AttributeError.
Proof.
  unfold CayleyQuad.from_dict, CayleyQuad.call_with_keywords.
  destruct (CayleyQuad.bind_keywords v) as [[[[s p] o] l]|e] eqn:Hb.
  - cbn [mbind result_bind].
    destruct (init_outcome s p o l) as [[q ->]| ->]; simpl; eauto.
  - assert (e = TypeError) as ->.
    { unfold CayleyQuad.bind_keywords in Hb.
      repeat case_match; congruence. }
    simpl. eauto.
Qed.


Lemma from_json_text_outcome decode s :
  (∃ q, CayleyQuad.from_json decode (VStr s) = Ok q) ∨
  CayleyQuad.from_json decode (VStr s) = Raise NotAValidQuadError ∨
  CayleyQuad.from_json decode (VStr s) = Raise AttributeError.
Proof.
  unfold CayleyQuad.from_json, json_loads.
  destruct (decode s) as [v|]; [|by right; left].
  cbn [mbind result_bind].
  destruct (from_dict_outcome v) as [[q ->]|[-> | ->]]; simpl; eauto.
Qed.

(** X4.  [from_dict] on any value, and [from_json] and [__eq__] on any
    text, return or raise [NotAValidQuadError] or [AttributeError]:
    [__eq__] on a text only the latter; no [TypeError] or [ValueError]
    leaves them. *)
Theorem quad_parsers_outcomes (decode : string → option value) (v : value)
    (s : string) (q : CayleyQuad) :
  ((∃ q', CayleyQuad.from_dict v = Ok q') ∨
   CayleyQuad.from_dict v = Raise NotAValidQuadError ∨
   CayleyQuad.from_dict v = Raise AttributeError) ∧
  ((∃ q', CayleyQuad.from_json decode (VStr s) = Ok q') ∨
   CayleyQuad.from_json decode (VStr s) = Raise NotAValidQuadError ∨
   CayleyQuad.from_json decode (VStr s) = Raise AttributeError) ∧
  ((∃ b, CayleyQuad.__eq__ decode q (VStr s) = Ok b) ∨
   CayleyQuad.__eq__ decode q (VStr s) = Raise AttributeError).
Proof.
  split_and!.
  - apply from_dict_outcome.
  - apply from_json_text_outcome.
  - rewrite eq_coerces_text_second by done.
    destruct (from_json_text_outcome decode s) as [[q' ->]|[-> | ->]]; eauto.
Qed.

Lemma from_dict_canonical v q :
  CayleyQuad.from_dict v = Ok q →
  CayleyQuad.canonical (subject q) ∧ CayleyQuad.canonical (predicate q) ∧
  CayleyQuad.canonical (object q) ∧ CayleyQuad.canonical (label q).
Proof.
  unfold CayleyQuad.from_dict, CayleyQuad.call_with_keywords.
  destruct (CayleyQuad.bind_keywords v) as [[[[s p] o] l]|e]; cbn [mbind result_bind].
  - destruct (CayleyQuad.__init__ s p o l) eqn:Hi; simpl.
    + intros [= <-]. by eapply init_canonical.
    + by case_decide.
  - simpl. by case_decide.
Qed.

Lemma from_json_canonical decode v q :
  CayleyQuad.from_json decode v = Ok q →
  CayleyQuad.canonical (subject q) ∧ CayleyQuad.canonical (predicate q) ∧
  CayleyQuad.canonical (object q) ∧ CayleyQuad.canonical (label q).
Proof.
  unfold CayleyQuad.from_json.
  destruct (json_loads decode v) as [w|e]; cbn [mbind result_bind].
  - destruct (CayleyQuad.from_dict w) eqn:Hd; simpl.
    + intros [= <-]. by eapply from_dict_canonical.
    + by case_decide.
  - simpl. by case_decide.
Qed.

Lemma canonical_text s :
  CayleyQuad.canonical (Some s) ↔ CayleyQuad.clean_text s = s.
Proof. unfold CayleyQuad.canonical. simpl. split; [by intros [= ->] | by intros ->]. Qed.

Lemma parsed_canonical decode v q :
  CayleyQuad.from_dict v = Ok q ∨ CayleyQuad.from_json decode v = Ok q →
  CayleyQuad.canonical (subject q) ∧ CayleyQuad.canonical (predicate q) ∧
  CayleyQuad.canonical (object q) ∧ CayleyQuad.canonical (label q).
Proof.
  intros [?|?]; [by eapply from_dict_canonical | by eapply from_json_canonical].
Qed.

(** X5.  A quad that [from_dict] or [from_json] returns holds cleaned
    attributes only, and [from_dict] rebuilds it from its [to_dict]. *)
Theorem parsed_quads_are_canonical (decode : string → option value)
    (v : value) (q : CayleyQuad) :
  CayleyQuad.from_dict v = Ok q ∨ CayleyQuad.from_json decode v = Ok q →
  (∀ s, s ∈ [subject q; predicate q; object q; label q] →
        ∀ t, s = Some t → CayleyQuad.clean_text t = t) ∧
  CayleyQuad.from_dict (VDict (CayleyQuad.to_dict q)) = Ok q.
Proof.
  intros (Hs & Hp & Ho & Hl)%parsed_canonical.
  split.
  - intros s Hin t ->. apply canonical_text.
    rewrite !elem_of_cons, elem_of_nil in Hin.
    destruct Hin as [Hin|[Hin|[Hin|[Hin|[]]]]]; by rewrite Hin.
  - by apply from_dict_to_dict.
Qed.

Lemma parsed_quads_are_canonical_witness :
  let q := mkQuad (Some "new_york") (Some "is_in") (Some "usa") None in
  (∀ s, s ∈ [subject q; predicate q; object q; label q] →
        ∀ t, s = Some t → CayleyQuad.clean_text t = t) ∧
  CayleyQuad.from_dict (VDict (CayleyQuad.to_dict q)) = Ok q.
Proof.
  apply (parsed_quads_are_canonical Json.decode
           (VDict [("object", VStr "USA "); ("subject", VStr " New York");
                   ("predicate", VStr "is in")])).
  left. reflexivity.
Defined.

(** ** The order of the keys of a record *)

Lemma dict_get_elem k v d :
  NoDup (dict_keys d) → dict_get k d = Some v ↔ (k, v) ∈ d.
Proof.
  unfold dict_keys. induction d as [|[k' v'] d IH]; simpl.
  - intros _. split; [done | by intros ?%elem_of_nil].
  - intros [Hk Hd]%NoDup_cons. rewrite elem_of_cons. case_decide as Heq.
    + subst k'. split; [intros [= ->]; by left|].
      intros [[= ->]|Hin]; [done|].
      destruct Hk. apply list_elem_of_fmap. by exists (k, v).
    + rewrite (IH Hd). split; [by right|]. intros [[= ? ?]|?]; [by subst | done].
Qed.

Lemma dict_get_perm k d d' :
  NoDup (dict_keys d) → d ≡ₚ d' → dict_get k d = dict_get k d'.
Proof.
  intros Hd Hp.
  assert (Hd' : NoDup (dict_keys d')) by (unfold dict_keys in *; by rewrite <- Hp).
  destruct (dict_get k d) as [v|] eqn:E1.
  - apply dict_get_elem in E1; [|done]. rewrite Hp in E1.
    symmetry. by apply dict_get_elem.
  - destruct (dict_get k d') as [v|] eqn:E2; [|done].
    apply dict_get_elem in E2; [|done]. rewrite <- Hp in E2.
    apply dict_get_elem in E2; [|done]. congruence.
Qed.

Lemma forallb_perm {A} (f : A → bool) l l' : l ≡ₚ l' → forallb f l = forallb f l'.
Proof.
  intros Hp. apply eq_true_iff_eq. rewrite !forallb_forall.
  split; intros H x Hx; apply H; apply list_elem_of_In; apply list_elem_of_In in Hx;
    [by rewrite Hp | by rewrite <- Hp].
Qed.

(** X6.  [from_dict] does not depend on the order of the keys of the
    record: two dicts with the same items give the same outcome. *)
Theorem from_dict_ignores_key_order (d d' : list (string * value)) :
  NoDup (dict_keys d) → d ≡ₚ d' →
  CayleyQuad.from_dict (VDict d) = CayleyQuad.from_dict (VDict d').
Proof.
  intros Hd Hp.
  unfold CayleyQuad.from_dict, CayleyQuad.call_with_keywords, CayleyQuad.bind_keywords.
  rewrite (forallb_perm _ (dict_keys d) (dict_keys d')) by (unfold dict_keys; by rewrite Hp).
  by rewrite !(dict_get_perm _ d d' Hd Hp).
Qed.

Lemma from_dict_ignores_key_order_witness :
  CayleyQuad.from_dict
    (VDict [("subject", VStr "a"); ("predicate", VStr "b"); ("object", VStr "c")])
  = CayleyQuad.from_dict
    (VDict [("object", VStr "c"); ("subject", VStr "a"); ("predicate", VStr "b")]).
Proof.
  apply from_dict_ignores_key_order.
  - compute_done.
  - change ([("subject", VStr "a"); ("predicate", VStr "b")] ++ [("object", VStr "c")]
            ≡ₚ [("object", VStr "c")] ++ [("subject", VStr "a"); ("predicate", VStr "b")])%list.
    apply Permutation_app_comm.
Defined.

(** ** Comparing quads *)



Lemma eq_record decode q d q' :
  CayleyQuad.from_dict (VDict d) = Ok q' →
  CayleyQuad.__eq__ decode q (VDict d) = Ok (bool_decide (q = q')).
Proof.
  intros Hd. rewrite (eq_coerces_record_first _ _ _ q') by done.
  by rewrite same_attributes_spec.
Qed.

(** X8.  [__eq__] with a record that [from_dict] accepts compares with the
    quad built from the record, so with the cleaned fields of the record;
    a quad that [from_dict] or [from_json] returned is equal to its own
    [to_dict]. *)
Theorem eq_record_coerces (decode : string → option value) (q : CayleyQuad) :
  (∀ d q', CayleyQuad.from_dict (VDict d) = Ok q' →
           CayleyQuad.__eq__ decode q (VDict d) = Ok (bool_decide (q = q'))) ∧
  (∀ s p o,
     CayleyQuad.__eq__ decode q
       (VDict [("subject", VStr s); ("predicate", VStr p); ("object", VStr o)])
     = Ok (bool_decide
             (q = mkQuad (Some (CayleyQuad.clean_text s))
                         (Some (CayleyQuad.clean_text p))
                         (Some (CayleyQuad.clean_text o)) None))) ∧
  (∀ v, CayleyQuad.from_dict v = Ok q ∨ CayleyQuad.from_json decode v = Ok q →
        CayleyQuad.__eq__ decode q (VDict (CayleyQuad.to_dict q)) = Ok true).
Proof.
  split_and!.
  - apply eq_record.
  - intros s p o. by apply eq_record.
  - intros v (Hs & Hp & Ho & Hl)%parsed_canonical.
    rewrite (eq_record _ _ _ q); [by rewrite bool_decide_eq_true_2|].
    by apply from_dict_to_dict.
Qed.

Lemma eq_record_coerces_witness :
  let q := mkQuad (Some "new_york") (Some "is_in") (Some "usa") None in
  CayleyQuad.__eq__ Json.decode q
    (VDict [("subject", VStr " New York"); ("predicate", VStr "Is In");
            ("object", VStr "USA")]) = Ok true ∧
  CayleyQuad.__eq__ Json.decode q (VDict (CayleyQuad.to_dict q)) = Ok true.
Proof.
  destruct (eq_record_coerces Json.decode
              (mkQuad (Some "new_york") (Some "is_in") (Some "usa") None))
    as (Hgen & _ & Hself).
  split.
  - apply (Hgen _ (mkQuad (Some "new_york") (Some "is_in") (Some "usa") None)).
    reflexivity.
  - apply (Hself (VDict [("subject", VStr "new york"); ("predicate", VStr "is in");
                         ("object", VStr "usa")])).
    left. reflexivity.
Defined.

(** X9.  [__eq__] with a text: [False] when the text is no JSON document or
    a document that [from_dict] rejects with [NotAValidQuadError];
    otherwise the comparison with the quad built from the document. *)
Theorem eq_text_coerces (decode : string → option value) (q : CayleyQuad)
    (s : string) :
  (decode s = None → CayleyQuad.__eq__ decode q (VStr s) = Ok false) ∧
  (∀ v, decode s = Some v →
        CayleyQuad.from_dict v = Raise NotAValidQuadError →
        CayleyQuad.__eq__ decode q (VStr s) = Ok false) ∧
  (∀ v q', decode s = Some v → CayleyQuad.from_dict v = Ok q' →
           CayleyQuad.__eq__ decode q (VStr s) = Ok (bool_decide (q = q'))).
Proof.
  rewrite eq_coerces_text_second by done.
  unfold CayleyQuad.from_json, json_loads. split_and!.
  - by intros ->.
  - intros v -> Hv. cbn [mbind result_bind]. by rewrite Hv.
  - intros v q' -> Hv. cbn [mbind result_bind]. rewrite Hv. simpl.
    by rewrite same_attributes_spec.
Qed.

Lemma eq_text_coerces_witness :
  let q := mkQuad (Some "a") (Some "b") (Some "c") None in
  CayleyQuad.__eq__ Json.decode q (VStr "{not json") = Ok false ∧
  CayleyQuad.__eq__ Json.decode q (VStr "[1, 2]") = Ok false ∧
  CayleyQuad.__eq__ Json.decode q
    (VStr (Json.dumps (VDict [("subject", VStr "A"); ("predicate", VStr "B");
                              ("object", VStr "C")]))) = Ok true.
Proof.
  intros q.
  destruct (eq_text_coerces Json.decode q "{not json") as (H1 & _ & _).
  destruct (eq_text_coerces Json.decode q "[1, 2]") as (_ & H2 & _).
  destruct (eq_text_coerces Json.decode q
              (Json.dumps (VDict [("subject", VStr "A"); ("predicate", VStr "B");
                                  ("object", VStr "C")]))) as (_ & _ & H3).
  split_and!.
  - apply H1. reflexivity.
  - apply (H2 (VList [VInt 1; VInt 2])); reflexivity.
  - apply (H3 (VDict [("subject", VStr "A"); ("predicate", VStr "B");
                      ("object", VStr "C")]) q); reflexivity.
Defined.

(** X10.  With a decoder that reads back what the encoder writes for the
    record of [q], [from_json] rebuilds from [to_json] every quad [q] that
    the constructor built, and [q] is equal to its own [to_json]. *)
Theorem json_round_trip (decode : string → option value)
    (json_dumps : value → string) (a b c d : value) (q : CayleyQuad) :
  CayleyQuad.__init__ a b c d = Ok q →
  decode (json_dumps (VDict (CayleyQuad.to_dict q)))
    = Some (VDict (CayleyQuad.to_dict q)) →
  CayleyQuad.from_json decode (VStr (CayleyQuad.to_json json_dumps q)) = Ok q ∧
  CayleyQuad.__eq__ decode q (VStr (CayleyQuad.__str__ json_dumps q)) = Ok true.
Proof.
  intros (Hs & Hp & Ho & Hl)%init_canonical Hcodec.
  assert (Hd : CayleyQuad.from_dict (VDict (CayleyQuad.to_dict q)) = Ok q)
    by by apply from_dict_to_dict.
  split.
  - unfold CayleyQuad.from_json, CayleyQuad.to_json, json_loads.
    rewrite Hcodec. cbn [mbind result_bind]. by rewrite Hd.
  - rewrite eq_coerces_text_second by done.
    unfold CayleyQuad.from_json, CayleyQuad.__str__, CayleyQuad.to_json, json_loads.
    rewrite Hcodec. cbn [mbind result_bind]. rewrite Hd. simpl.
    by rewrite same_attributes_spec, bool_decide_eq_true_2.
Qed.

Lemma json_round_trip_witness :
  let q := mkQuad (Some "alice_smith") (Some "follows") (Some "bob")
                  (Some "friends") in
  CayleyQuad.from_json Json.decode (VStr (CayleyQuad.to_json Json.dumps q))
    = Ok q ∧
  CayleyQuad.__eq__ Json.decode q (VStr (CayleyQuad.__str__ Json.dumps q))
    = Ok true.
Proof.
  apply (json_round_trip Json.decode Json.dumps
           (VStr "Alice Smith") (VStr "follows") (VStr " Bob") (VStr "Friends"));
    reflexivity.
Defined.

(** ** Collections of quads *)

Lemma rmapM_Ok {A B} (f : A → result B) l ys :
  rmapM f l = Ok ys ↔ Forall2 (λ x y, f x = Ok y) l ys.
Proof.
  revert ys. induction l as [|x l IH]; intros ys; simpl.
  - split; [intros [= <-]; constructor | by intros ->%Forall2_nil_inv_l].
  - destruct (f x) as [y|e] eqn:Hx; cbn [mbind result_bind].
    + destruct (rmapM f l) as [zs|e]; cbn [mbind result_bind].
      * split.
        -- intros [= <-]. constructor; [done|]. by apply IH.
        -- intros (y' & zs' & Hy & Hzs & ->)%Forall2_cons_inv_l.
           apply IH in Hzs. congruence.
      * split; [done|].
        intros (y' & zs' & Hy & Hzs & ->)%Forall2_cons_inv_l.
        by apply IH in Hzs.
    + split; [done|].
      intros (y' & zs' & Hy & Hzs & ->)%Forall2_cons_inv_l. congruence.
Qed.

Lemma rmapM_first_failure {A B} (f : A → result B) l1 x l2 e :
  Forall (λ x, ∃ y, f x = Ok y) l1 → f x = Raise e →
  rmapM f (l1 ++ x :: l2) = Raise e.
Proof.
  intros Hl Hx. induction Hl as [|x' l1 [y Hy] _ IH]; simpl.
  - by rewrite Hx.
  - rewrite Hy. cbn [mbind result_bind]. by rewrite IH.
Qed.

Lemma size_list_to_set_le (l : list CayleyQuad) :
  (size (list_to_set l : gset CayleyQuad) ≤ List.length l)%nat.
Proof.
  induction l as [|x l IH].
  - rewrite list_to_set_nil, size_empty. simpl. lia.
  - rewrite list_to_set_cons, size_union_alt, size_singleton.
    assert (Hsub : (list_to_set l : gset CayleyQuad) ∖ {[x]} ⊆ list_to_set l).
    { intros y [Hy _]%elem_of_difference. exact Hy. }
    apply subseteq_size in Hsub. simpl. lia.
Qed.

Lemma from_list_Ok obj S :
  CayleyQuads.from_list obj = Ok S ↔
  ∃ qs, Forall2 (λ r q, CayleyQuad.from_dict r = Ok q) obj qs ∧
        S = mkQuads (PySet (list_to_set qs)).
Proof.
  unfold CayleyQuads.from_list.
  destruct (rmapM CayleyQuad.from_dict obj) as [qs|e] eqn:Hm;
    cbn [mbind result_bind].
  - apply rmapM_Ok in Hm. split.
    + intros [= <-]. by exists qs.
    + intros (qs' & Hqs' & ->). apply rmapM_Ok in Hm, Hqs'.
      rewrite Hm in Hqs'. by injection Hqs' as ->.
  - split; [done|]. intros (qs' & Hqs' & _). apply rmapM_Ok in Hqs'. congruence.
Qed.

(** X11.  When [from_list] returns, every record was accepted by
    [from_dict], the collection is a set that holds exactly the quads of
    the records, and records that give equal quads are held once: the set
    has at most as many elements as the list has records. *)
Theorem from_list_collects (obj : list value) (S : CayleyQuads) :
  CayleyQuads.from_list obj = Ok S →
  ∃ s, quads S = PySet s ∧
       (∀ r, r ∈ obj → ∃ q, CayleyQuad.from_dict r = Ok q ∧ q ∈ s) ∧
       (∀ q, q ∈ s → ∃ r, r ∈ obj ∧ CayleyQuad.from_dict r = Ok q) ∧
       (size s ≤ List.length obj)%nat.
Proof.
  intros (qs & Hqs & ->)%from_list_Ok. exists (list_to_set qs). split_and!.
  - done.
  - intros r (i & Hi)%list_elem_of_lookup.
    destruct (Forall2_lookup_l _ _ _ _ _ Hqs Hi) as (q & Hq & Hrq).
    exists q. split; [done|].
    apply elem_of_list_to_set, list_elem_of_lookup. eauto.
  - intros q (i & Hi)%elem_of_list_to_set%list_elem_of_lookup.
    destruct (Forall2_lookup_r _ _ _ _ _ Hqs Hi) as (r & Hr & Hrq).
    exists r. split; [|done]. apply list_elem_of_lookup. eauto.
  - rewrite (Forall2_length _ _ _ Hqs). apply size_list_to_set_le.
Qed.

Lemma from_list_collects_witness :
  ∃ s,
    quads (mkQuads (PySet (list_to_set
      [mkQuad (Some "a") (Some "b") (Some "c") None;
       mkQuad (Some "a") (Some "b") (Some "c") None]))) = PySet s ∧
    (∀ r, r ∈ [VDict [("subject", VStr "A"); ("predicate", VStr "B");
                      ("object", VStr "C")];
               VDict [("object", VStr " c"); ("predicate", VStr "b ");
                      ("subject", VStr "a")]] →
          ∃ q, CayleyQuad.from_dict r = Ok q ∧ q ∈ s) ∧
    (∀ q, q ∈ s →
          ∃ r, r ∈ [VDict [("subject", VStr "A"); ("predicate", VStr "B");
                           ("object", VStr "C")];
                    VDict [("object", VStr " c"); ("predicate", VStr "b ");
                           ("subject", VStr "a")]] ∧
               CayleyQuad.from_dict r = Ok q) ∧
    (size s ≤ 2)%nat.
Proof.
  apply (from_list_collects
           [VDict [("subject", VStr "A"); ("predicate", VStr "B");
                   ("object", VStr "C")];
            VDict [("object", VStr " c"); ("predicate", VStr "b ");
                   ("subject", VStr "a")]]).
  reflexivity.
Defined.

(** X12.  One record that [from_dict] rejects makes [from_list] raise:
    the exception is the one of the first such record, and no collection
    is built. *)
Theorem from_list_first_failure (before after : list value) (bad : value)
    (e : exn) :
  Forall (λ r, ∃ q, CayleyQuad.from_dict r = Ok q) before →
  CayleyQuad.from_dict bad = Raise e →
  CayleyQuads.from_list (before ++ bad :: after) = Raise e ∧
  (e = NotAValidQuadError ∨ e = AttributeError).
Proof.
  intros Hb Hbad. split.
  - unfold CayleyQuads.from_list.
    by rewrite (rmapM_first_failure _ _ _ _ _ Hb Hbad).
  - destruct (from_dict_outcome bad) as [[q Hq]|[Hq|Hq]]; rewrite Hq in Hbad;
      [done | injection Hbad as <-; by left | injection Hbad as <-; by right].
Qed.

Lemma from_list_first_failure_witness :
  CayleyQuads.from_list
    ([VDict [("subject", VStr "a"); ("predicate", VStr "b"); ("object", VStr "c")]]
     ++ VDict [("subject", VStr "a")]
     :: [VDict [("subject", VInt 1); ("predicate", VStr "b"); ("object", VStr "c")]])
  = Raise NotAValidQuadError ∧
  (NotAValidQuadError = NotAValidQuadError ∨ NotAValidQuadError = AttributeError).
Proof.
  apply from_list_first_failure; [|reflexivity].
  constructor; [eexists; reflexivity | constructor].
Defined.

(** X13.  A collection that [from_list] built holds a set, so [add_quad]
    on it returns, keeps every quad held and holds the new one; the empty
    list of records gives the empty set, unlike the constructor without
    argument. *)
Theorem from_list_then_add_quad (obj : list value) (S : CayleyQuads)
    (q : CayleyQuad) :
  CayleyQuads.from_list obj = Ok S →
  ∃ S', CayleyQuads.add_quad S q = (Ok (), S') ∧
        CayleyQuads.content S' = CayleyQuads.content S ∪ {[q]} ∧
        (obj = [] → CayleyQuads.content S' = {[q]}).
Proof.
  intros (qs & Hqs & ->)%from_list_Ok.
  eexists. split_and!; [reflexivity..|].
  intros ->. apply Forall2_nil_inv_l in Hqs as ->.
  unfold CayleyQuads.content. simpl. by rewrite (left_id_L ∅ (∪)).
Qed.

Lemma from_list_then_add_quad_witness :
  let q := mkQuad (Some "a") (Some "b") (Some "c") None in
  ∃ S', CayleyQuads.add_quad (mkQuads (PySet (list_to_set []))) q = (Ok (), S') ∧
        CayleyQuads.content S'
          = CayleyQuads.content (mkQuads (PySet (list_to_set []))) ∪ {[q]} ∧
        ([] = @nil value → CayleyQuads.content S' = {[q]}).
Proof. intros q. by apply (from_list_then_add_quad []). Defined.



(** ** Formatting and serialization *)

(** One step of [format_percent], by the first character of the token. *)
Lemma format_percent_cons str_of c rest params :
  format_percent str_of (String c rest) params =
  if decide (c = "%"%char) then
    match rest with
    | String c2 rest2 =>
        if decide (c2 = "s"%char) then
          match params with
          | [] => Some (Raise TypeError)
          | p :: params' =>
              match str_of p with
              | Some (Ok s) =>
                  match format_percent str_of rest2 params' with
                  | Some (Ok r) => Some (Ok (s +:+ r))
                  | o => o
                  end
              | o => o
              end
          end
        else if decide (c2 = "d"%char) then
          match params with
          | [] => Some (Raise TypeError)
          | p :: params' =>
              match p with
              | VInt z =>
                  match format_percent str_of rest2 params' with
                  | Some (Ok r) => Some (Ok (pretty z +:+ r))
                  | o => o
                  end
              | VBool b =>
                  match format_percent str_of rest2 params' with
                  | Some (Ok r) => Some (Ok ((if b then "1" else "0") +:+ r))
                  | o => o
                  end
              | _ => Some (Raise TypeError)
              end
          end
        else if decide (c2 = "%"%char) then
          match format_percent str_of rest2 params with
          | Some (Ok r) => Some (Ok (String "%" r))
          | o => o
          end
        else Some (Raise ValueError)
    | EmptyString => Some (Raise ValueError)
    end
  else
    match format_percent str_of rest params with
    | Some (Ok r) => Some (Ok (String c r))
    | o => o
    end.
Proof.
  destruct c as [[] [] [] [] [] [] [] []]; try reflexivity.
  destruct rest as [|c2 rest2]; [reflexivity|].
  destruct c2 as [[] [] [] [] [] [] [] []]; reflexivity.
Qed.

Lemma format_percent_ext_below f g n : ∀ tok params,
  (String.length tok < n)%nat →
  (∀ p, p ∈ params → f p = g p) →
  format_percent f tok params = format_percent g tok params.
Proof.
  induction n as [|n IH]; intros tok params Hn Hext; [lia|].
  destruct tok as [|c rest]; [done|]. rewrite !format_percent_cons.
  simpl in Hn. case_decide.
  - destruct rest as [|c2 rest2]; [done|]. simpl in Hn.
    assert (Htail : ∀ ps, (∀ p, p ∈ ps → f p = g p) →
              format_percent f rest2 ps = format_percent g rest2 ps).
    { intros ps Hps. apply IH; [lia | done]. }
    repeat case_decide; try done.
    + destruct params as [|p params']; [done|].
      rewrite (Hext p) by left.
      rewrite (Htail params') by (intros; apply Hext; by right). done.
    + destruct params as [|p params']; [done|].
      rewrite (Htail params') by (intros; apply Hext; by right). done.
    + by rewrite (Htail params).
  - rewrite (IH rest params) by (done || lia). done.
Qed.

Lemma format_percent_ext f g tok params :
  (∀ p, p ∈ params → f p = g p) →
  format_percent f tok params = format_percent g tok params.
Proof. apply (format_percent_ext_below f g (S (String.length tok))). lia. Qed.

Lemma format_percent_returns_below f n : ∀ tok params,
  (String.length tok < n)%nat →
  (∀ p, p ∈ params → is_Some (f p)) →
  is_Some (format_percent f tok params).
Proof.
  induction n as [|n IH]; intros tok params Hn Hf; [lia|].
  destruct tok as [|c rest]; [by destruct params|]. rewrite format_percent_cons.
  simpl in Hn. case_decide.
  - destruct rest as [|c2 rest2]; [done|]. simpl in Hn.
    assert (Htail : ∀ ps, (∀ p, p ∈ ps → is_Some (f p)) →
              is_Some (format_percent f rest2 ps)).
    { intros ps Hps. apply IH; [lia | done]. }
    repeat case_decide; try done.
    + destruct params as [|p params']; [done|].
      destruct (Hf p) as [[s|e] ->]; [by left| |done].
      destruct (Htail params') as [[r|e] ->]; [intros; apply Hf; by right|done..].
    + destruct params as [|p params']; [done|].
      destruct (Htail params') as [[r|e] Hr]; [intros; apply Hf; by right|..];
        rewrite Hr; by destruct p.
    + destruct (Htail params) as [[r|e] ->]; done.
  - destruct (IH rest params) as [[r|e] ->]; done || lia.
Qed.

Lemma str_plain cs jd fuel h v :
  plain v = true → str cs jd fuel h v = str cs jd 0 [] v ∧ is_Some (str cs jd 0 [] v).
Proof. destruct v, fuel; done. Qed.

Lemma def_str_plain cs jd fuel h d :
  forallb plain (parameters d) = true →
  _QueryDefinition.__str__ (str cs jd fuel h) d
  = _QueryDefinition.__str__ (str cs jd 0 []) d ∧
  is_Some (_QueryDefinition.__str__ (str cs jd 0 []) d).
Proof.
  intros Hp. rewrite forallb_forall in Hp.
  unfold _QueryDefinition.__str__. destruct (parameters d) as [|p ps] eqn:E; [done|].
  split.
  - apply format_percent_ext. intros x Hx%list_elem_of_In.
    by apply str_plain, Hp.
  - apply (format_percent_returns_below _ (S (String.length (token d)))); [lia|].
    intros x Hx%list_elem_of_In. by apply (str_plain cs jd 0 []), Hp.
Qed.

Lemma str_each_plain cs jd fuel h ds :
  forallb (λ d, forallb plain (parameters d)) ds = true →
  str_each (str cs jd fuel h) ds = str_each (str cs jd 0 []) ds ∧
  is_Some (str_each (str cs jd 0 []) ds).
Proof.
  induction ds as [|d ds IH]; [done|]. cbn [str_each forallb].
  intros [Hd Hds]%andb_true_iff.
  destruct (def_str_plain cs jd fuel h d Hd) as [-> [[s|e] ->]].
  2:{ split; [done|by eexists]. }
  destruct (IH Hds) as [-> [[ss|e] ->]]; (split; [done|by eexists]).
Qed.

(** The serialization of a flat query object, from its declarations alone. *)
Lemma build_flat cs jd fuel self h q :
  h !! self = Some q → flat q = true →
  _Path.build cs jd (S fuel) self h =
  match str_each (str cs jd 0 []) (queryDeclarations q) with
  | Some (Ok ss) => Some (Ok (join "." ss), h)
  | Some (Raise e) => Some (Raise e, h)
  | None => None
  end.
Proof.
  intros Hq Hflat. unfold _Path.build. cbn [str]. rewrite Hq.
  destruct (str_each_plain cs jd fuel h _ Hflat) as [-> _].
  by destruct (str_each _ _) as [[]|].
Qed.

Lemma str_each_length f ds ss :
  str_each f ds = Some (Ok ss) → List.length ss = List.length ds.
Proof.
  revert ss. induction ds as [|d ds IH]; intros ss; cbn [str_each].
  - by intros [= <-].
  - destruct (_QueryDefinition.__str__ f d) as [[s|e]|]; [|done..].
    destruct (str_each f ds) as [[ss'|e]|]; [|done..].
    intros [= <-]. simpl. f_equal. by apply IH.
Qed.

Lemma str_each_snoc f ds d ss t :
  str_each f ds = Some (Ok ss) →
  _QueryDefinition.__str__ f d = Some (Ok t) →
  str_each f (ds ++ [d]) = Some (Ok (ss ++ [t])%list).
Proof.
  revert ss. induction ds as [|x ds IH]; intros ss; cbn [str_each app].
  - intros [= <-] ->. done.
  - destruct (_QueryDefinition.__str__ f x) as [[s|e]|]; [|done..].
    destruct (str_each f ds) as [[ss'|e]|]; [|done..].
    intros [= <-] Ht. by rewrite (IH ss' eq_refl Ht).
Qed.


Lemma join_snoc sep ss t :
  ss ≠ [] → join sep (ss ++ [t]) = join sep ss +:+ sep +:+ t.
Proof.
  induction ss as [|a ss IH]; [done|]. intros _.
  destruct ss as [|b ss]; [done|]. specialize (IH ltac:(done)).
  change (join sep ((a :: b :: ss) ++ [t]))
    with (a +:+ sep +:+ join sep ((b :: ss) ++ [t])).
  change (join sep (a :: b :: ss)) with (a +:+ sep +:+ join sep (b :: ss)).
  rewrite IH. by rewrite !string_app_assoc.
Qed.

Lemma with_step_lookup self d h q :
  h !! self = Some q →
  with_step self d h !! self
  = Some (mkQuery (class_of q) (queryDeclarations q ++ [d])).
Proof.
  intros Hq. unfold with_step. rewrite Hq.
  apply list_lookup_insert_eq. by eapply lookup_lt_Some.
Qed.

Lemma with_step_lookup_ne self other d h :
  self ≠ other → with_step self d h !! other = h !! other.
Proof.
  intros Hne. unfold with_step. destruct (h !! self); [|done].
  by apply list_lookup_insert_ne.
Qed.

Lemma build_flat_inv cs jd fuel self h q s :
  h !! self = Some q → flat q = true →
  _Path.build cs jd (S fuel) self h = Some (Ok s, h) →
  ∃ ss, str_each (str cs jd 0 []) (queryDeclarations q) = Some (Ok ss) ∧
        s = join "." ss.
Proof.
  intros Hq Hflat. rewrite (build_flat _ _ _ _ _ _ Hq Hflat).
  destruct (str_each _ _) as [[ss|e]|]; [|done..].
  intros [= <-]. by exists ss.
Qed.

Lemma flat_snoc q d :
  flat q = true → forallb plain (parameters d) = true →
  flat (mkQuery (class_of q) (queryDeclarations q ++ [d])) = true.
Proof.
  unfold flat. cbn [queryDeclarations]. intros Hq Hd.
  rewrite forallb_app, Hq. simpl. by rewrite Hd.
Qed.

(** The serialization after one more step without reference. *)
Lemma build_with_step cs jd fuel self h q s d t :
  h !! self = Some q → flat q = true → queryDeclarations q ≠ [] →
  _Path.build cs jd (S fuel) self h = Some (Ok s, h) →
  forallb plain (parameters d) = true →
  _QueryDefinition.__str__ (str cs jd 0 []) d = Some (Ok t) →
  _Path.build cs jd (S fuel) self (with_step self d h)
  = Some (Ok (s +:+ "." +:+ t), with_step self d h).
Proof.
  intros Hq Hflat Hne Hb Hd Ht.
  destruct (build_flat_inv _ _ _ _ _ _ _ Hq Hflat Hb) as (ss & Hss & ->).
  rewrite (build_flat _ _ _ _ _ _ (with_step_lookup _ d _ _ Hq)
             (flat_snoc _ _ Hflat Hd)).
  cbn [queryDeclarations]. rewrite (str_each_snoc _ _ _ _ _ Hss Ht).
  rewrite join_snoc; [done|].
  intros ->. apply str_each_length in Hss. destruct (queryDeclarations q); done.
Qed.


(** A call that is [_put] and the return of [self]. *)
Lemma put_self self tok params h q :
  h !! self = Some q →
  (_GremlinQuery._put self tok params;; mret (VRef self)) h
  = Some (Ok (VRef self), with_step self (mkDef tok params) h).
Proof.
  intros Hq. unfold mbind, mret, Op_bind, Op_ret, _GremlinQuery._put, with_step.
  by rewrite Hq.
Qed.

Lemma extends_by_put cs jd fuel self h q s m tok params t :
  h !! self = Some q → flat q = true → queryDeclarations q ≠ [] →
  _Path.build cs jd (S fuel) self h = Some (Ok s, h) →
  m h = Some (Ok (VRef self), with_step self (mkDef tok params) h) →
  forallb plain params = true →
  _QueryDefinition.__str__ (str cs jd 0 []) (mkDef tok params) = Some (Ok t) →
  extends_query cs jd fuel self h s m t.
Proof.
  intros Hq Hflat Hne Hb Hm Hp Ht. eexists. split; [exact Hm|].
  by eapply build_with_step.
Qed.

Ltac run_put Hq :=
  unfold _Path.Has, _Path.Back, _Path.Save, _Path.Out, _Path.In, _Path.Both,
    _Path._bounds, _Path.Tag, _Path.Is, _Path.Intersect, _Path.Union,
    _Path.Follow, _Path.FollowR, _Vertex.All, _Vertex.GetLimit,
    _Path._format_input_bounds, str_join;
  rewrite ?join_values_texts;
  unfold mbind, mret, Op_bind, Op_ret, result_bind, lift, raise,
    _GremlinQuery._put, with_step;
  cbn [isinstance is_str negb andb];
  cbn beta iota; rewrite ?Hq; try reflexivity.

(** X19.  On a query object without query objects among its parameters,
    [Has], [Back], [Save], [Is], [Tag], [All] and [GetLimit] with text
    arguments (an integer for [GetLimit]) return the object, and its
    serialization becomes the one before, a dot and the step: texts
    between single quotes, the tags as [json.dumps] encodes them, the limit
    in decimal. *)
Theorem text_steps_extend_the_query (cs jd : value → string)
    (fuel self : nat) (h : heap) (q : _GremlinQuery) (s : string) :
  h !! self = Some q → flat q = true → queryDeclarations q ≠ [] →
  _Path.build cs jd (S fuel) self h = Some (Ok s, h) →
  (∀ p o, extends_query cs jd fuel self h s
            (_Path.Has self (VStr p) (VStr o))
            ("Has('" +:+ p +:+ "', '" +:+ o +:+ "')")) ∧
  (∀ t, extends_query cs jd fuel self h s
          (_Path.Back self (VStr t)) ("Back('" +:+ t +:+ "')")) ∧
  (∀ p t, extends_query cs jd fuel self h s
            (_Path.Save self (VStr p) (VStr t))
            ("Save('" +:+ p +:+ "', '" +:+ t +:+ "')")) ∧
  (∀ nodes, extends_query cs jd fuel self h s
              (_Path.Is self (VStr <$> nodes))
              ("Is('" +:+ join "', '" nodes +:+ "')")) ∧
  (∀ tags : list string,
     extends_query cs jd fuel self h s
       (_Path.Tag jd self (VStr <$> tags))
       ("Tag(" +:+ jd (VTuple (VStr <$> tags)) +:+ ")")) ∧
  extends_query cs jd fuel self h s (_Vertex.All self) "All()" ∧
  (∀ z, extends_query cs jd fuel self h s
          (_Vertex.GetLimit self (VInt z)) ("GetLimit(" +:+ pretty z +:+ ")")).
Proof.
  intros Hq Hflat Hne Hb.
  split_and!; intros;
    (eapply (extends_by_put _ _ _ _ _ _ _ _ _ _ _ Hq Hflat Hne Hb);
     [run_put Hq | done | reflexivity]).
Qed.

Lemma text_steps_extend_the_query_witness :
  let h := [mkQuery _Vertex [mkDef "g.V('alice')" []]; mkQuery _Morphism [mkDef "g.Morphism()" []]] in
  extends_query (λ _, "") (λ _, "") 0 0 h "g.V('alice')"
    (_Path.Has 0 (VStr "name") (VStr "bob")) "Has('name', 'bob')" ∧
  extends_query (λ _, "") (λ _, "") 0 0 h "g.V('alice')"
    (_Vertex.GetLimit 0 (VInt 5)) "GetLimit(5)".
Proof.
  intros h.
  destruct (text_steps_extend_the_query (λ _, "") (λ _, "") 0 0 h
              (mkQuery _Vertex [mkDef "g.V('alice')" []]) "g.V('alice')")
    as (HHas & _ & _ & _ & _ & _ & HLimit); [reflexivity | reflexivity | discriminate | reflexivity |].
  split; [apply HHas | apply (HLimit 5%Z)].
Defined.

Ltac step_text :=
  first
    [ reflexivity
    | unfold _QueryDefinition.__str__;
      cbn [parameters token format_percent str];
      rewrite ?string_app_assoc; reflexivity ].

(** X20.  [Out], [In] and [Both] emit the name with no argument when
    predicate and tags are [None], with the predicate alone when the tags
    are [None], with both otherwise: a text between single quotes, [None]
    as [null], a dict of texts as [json.dumps] encodes it, and a list of
    tags as the interpreter prints it, not as JSON. *)
Theorem bounds_forms (cs jd : value → string)
    (fuel self : nat) (h : heap) (q : _GremlinQuery) (s : string)
    (name : string) (method : nat → value → value → Op value) :
  h !! self = Some q → flat q = true → queryDeclarations q ≠ [] →
  _Path.build cs jd (S fuel) self h = Some (Ok s, h) →
  (name, method) ∈ [("Out", _Path.Out jd); ("In", _Path.In jd);
                    ("Both", _Path.Both jd)] →
  extends_query cs jd fuel self h s (method self VNone VNone) (name +:+ "()") ∧
  (∀ p, extends_query cs jd fuel self h s (method self (VStr p) VNone)
          (name +:+ "('" +:+ p +:+ "')")) ∧
  (∀ p t, extends_query cs jd fuel self h s (method self (VStr p) (VStr t))
            (name +:+ "('" +:+ p +:+ "', '" +:+ t +:+ "')")) ∧
  (∀ t, extends_query cs jd fuel self h s (method self VNone (VStr t))
          (name +:+ "(null, '" +:+ t +:+ "')")) ∧
  (∀ fields : list (string * string),
     extends_query cs jd fuel self h s
       (method self (VDict (prod_map id VStr <$> fields)) VNone)
       (name +:+ "(" +:+ jd (VDict (prod_map id VStr <$> fields)) +:+ ")")) ∧
  (∀ p l, extends_query cs jd fuel self h s (method self (VStr p) (VList l))
            (name +:+ "('" +:+ p +:+ "', " +:+ cs (VList l) +:+ ")")).
Proof.
  intros Hq Hflat Hne Hb Hin.
  rewrite !elem_of_cons, elem_of_nil in Hin.
  destruct Hin as [[= -> ->]|[[= -> ->]|[[= -> ->]|[]]]];
    (split_and!; intros;
     (eapply (extends_by_put _ _ _ _ _ _ _ _ _ _ _ Hq Hflat Hne Hb);
      [run_put Hq | done | step_text])).
Qed.

Lemma bounds_forms_witness :
  let h := [mkQuery _Vertex [mkDef "g.V('alice')" []]; mkQuery _Morphism [mkDef "g.Morphism()" []]] in
  extends_query (λ _, "") (λ _, "") 0 0 h "g.V('alice')"
    (_Path.Out (λ _, "") 0 (VStr "follows") VNone) "Out('follows')" ∧
  extends_query (λ _, "") (λ _, "") 0 0 h "g.V('alice')"
    (_Path.Out (λ _, "") 0 VNone (VStr "t")) "Out(null, 't')".
Proof.
  intros h.
  destruct (bounds_forms (λ _, "") (λ _, "") 0 0 h
              (mkQuery _Vertex [mkDef "g.V('alice')" []]) "g.V('alice')" "Out" (_Path.Out (λ _, "")))
    as (_ & Hone & _ & Hnull & _);
    [reflexivity | reflexivity | discriminate | reflexivity | by left |].
  split; [apply Hone | apply Hnull].
Defined.

(** X21.  [Intersect], [Union], [Follow] and [FollowR] accept a text and
    embed it as it is, without quotes. *)
Theorem combinators_embed_text (cs jd : value → string)
    (fuel self : nat) (h : heap) (q : _GremlinQuery) (s x : string) :
  h !! self = Some q → flat q = true → queryDeclarations q ≠ [] →
  _Path.build cs jd (S fuel) self h = Some (Ok s, h) →
  extends_query cs jd fuel self h s (_Path.Intersect self (VStr x))
    ("Intersect(" +:+ x +:+ ")") ∧
  extends_query cs jd fuel self h s (_Path.Union self (VStr x))
    ("Union(" +:+ x +:+ ")") ∧
  extends_query cs jd fuel self h s (_Path.Follow self (VStr x))
    ("Follow(" +:+ x +:+ ")") ∧
  extends_query cs jd fuel self h s (_Path.FollowR self (VStr x))
    ("FollowR(" +:+ x +:+ ")").
Proof.
  intros Hq Hflat Hne Hb.
  split_and!;
    (eapply (extends_by_put _ _ _ _ _ _ _ _ _ _ _ Hq Hflat Hne Hb);
     [run_put Hq | done | reflexivity]).
Qed.

Lemma combinators_embed_text_witness :
  let h := [mkQuery _Vertex [mkDef "g.V('alice')" []]; mkQuery _Morphism [mkDef "g.Morphism()" []]] in
  extends_query (λ _, "") (λ _, "") 0 0 h "g.V('alice')"
    (_Path.Intersect 0 (VStr "g.V('bob')")) "Intersect(g.V('bob'))".
Proof.
  intros h.
  destruct (combinators_embed_text (λ _, "") (λ _, "") 0 0 h
              (mkQuery _Vertex [mkDef "g.V('alice')" []]) "g.V('alice')" "g.V('bob')")
    as (HI & _); [reflexivity | reflexivity | discriminate | reflexivity |].
  exact HI.
Defined.

(** X18.  The serialization of a query object without query objects among
    its parameters always ends, with a text or an exception, and depends on
    its declarations only: not on the fuel, not on its address, not on the
    other objects of the heap, and not on steps added to another object. *)
Theorem flat_query_serializes (cs jd : value → string)
    (fuel fuel' self self' other : nat) (h h' : heap) (q : _GremlinQuery)
    (d : _QueryDefinition) :
  h !! self = Some q → h' !! self' = Some q → flat q = true →
  ∃ r, _Path.build cs jd (S fuel) self h = Some (r, h) ∧
       _Path.build cs jd (S fuel') self' h' = Some (r, h') ∧
       (other ≠ self →
        _Path.build cs jd (S fuel) self (with_step other d h)
        = Some (r, with_step other d h)).
Proof.
  intros Hq Hq' Hflat.
  destruct (str_each_plain cs jd 0 [] _ Hflat) as [_ [r Hr]].
  exists (match r with Ok ss => Ok (join "." ss) | Raise e => Raise e end).
  split_and!.
  - rewrite (build_flat _ _ _ _ _ _ Hq Hflat), Hr. by destruct r.
  - rewrite (build_flat _ _ _ _ _ _ Hq' Hflat), Hr. by destruct r.
  - intros Hne.
    assert (Hq2 : with_step other d h !! self = Some q)
      by by rewrite with_step_lookup_ne.
    rewrite (build_flat _ _ _ _ _ _ Hq2 Hflat), Hr. by destruct r.
Qed.

Lemma flat_query_serializes_witness :
  let h := [mkQuery _Vertex [mkDef "g.V('alice')" []]; mkQuery _Morphism [mkDef "g.Morphism()" []]] in
  let d := mkDef "Back('%s')" [VStr "t"] in
  ∃ r, _Path.build (λ _, "") (λ _, "") 1 0 h = Some (r, h) ∧
       _Path.build (λ _, "") (λ _, "") 9 0 [mkQuery _Vertex [mkDef "g.V('alice')" []]]
         = Some (r, [mkQuery _Vertex [mkDef "g.V('alice')" []]]) ∧
       (1 ≠ 0 → _Path.build (λ _, "") (λ _, "") 1 0 (with_step 1 d h)
                 = Some (r, with_step 1 d h)).
Proof.
  intros h d.
  apply (flat_query_serializes (λ _, "") (λ _, "") 0 8 0 0 1 h
           [mkQuery _Vertex [mkDef "g.V('alice')" []]] (mkQuery _Vertex [mkDef "g.V('alice')" []]) d); reflexivity.
Defined.



(** ** Every fluent method *)

Lemma put_outcome self tok params h :
  (_GremlinQuery._put self tok params;; mret (VRef self)) h =
  match h !! self with
  | Some q => Some (Ok (VRef self), with_step self (mkDef tok params) h)
  | None => None
  end.
Proof.
  unfold mbind, mret, Op_bind, Op_ret, _GremlinQuery._put, with_step.
  by destruct (h !! self).
Qed.

Lemma put_appends_one_step self tok params :
  appends_one_step self (_GremlinQuery._put self tok params;; mret (VRef self)).
Proof.
  intros h r h'. rewrite put_outcome.
  destruct (h !! self) as [q|] eqn:Hq; [|done].
  intros [= <- <-]. eauto.
Qed.


Lemma then_self_appends_one_step self (m : Op value) :
  appends_one_step self m → appends_one_step self (m;; mret (VRef self)).
Proof.
  intros Hm h r h'. unfold mbind, mret, Op_bind, Op_ret.
  destruct (m h) as [[[a|e] h1]|] eqn:E; [|done..].
  intros [= <- <-]. destruct (Hm _ _ _ E) as (_ & ? & ?). eauto.
Qed.


Lemma guarded_appends_one_step self (test : heap → bool) e (m : Op value) :
  appends_one_step self m →
  appends_one_step self (λ h, if test h then raise e h else m h).
Proof. intros Hm h r h'. destruct (test h); [done|]. apply Hm. Qed.


Lemma bounds_appends_one_step jd self name p t :
  appends_one_step self (_Path._bounds jd self name p t).
Proof. unfold _Path._bounds. destruct p, t; apply put_appends_one_step. Qed.


Lemma Is_outcome self nodes h :
  _Path.Is self nodes h =
  match str_join "', '" nodes with
  | Ok j => (_GremlinQuery._put self "Is('%s')" [VStr j];; mret (VRef self)) h
  | Raise e => Some (Raise e, h)
  end.
Proof. unfold _Path.Is. by destruct (str_join _ _). Qed.

(** X15.  Each of the fourteen fluent methods, whatever its arguments,
    returns the object it was called on when it returns, and has then
    appended exactly one declaration to it: the class, the declarations
    before and every other object are as they were. *)
Theorem methods_append_one_step (jd : value → string) (self : nat)
    (x y : value) (l : list value) :
  Forall (appends_one_step self)
    [_Path.Out jd self x y; _Path.In jd self x y; _Path.Both jd self x y;
     _Path.Is self l; _Path.Has self x y; _Path.Tag jd self l;
     _Path.Back self x; _Path.Save self x y;
     _Path.Intersect self x; _Path.Union self x;
     _Path.Follow self x; _Path.FollowR self x;
     _Vertex.All self; _Vertex.GetLimit self x].
Proof.
  repeat apply Forall_cons_2; try apply Forall_nil_2;
    try apply put_appends_one_step;
    try (apply then_self_appends_one_step, bounds_appends_one_step);
    try (apply guarded_appends_one_step, put_appends_one_step).
  intros h r h'. rewrite Is_outcome. destruct (str_join _ _); [|done].
  apply put_appends_one_step.
Qed.



(** ** Query objects as arguments *)

Lemma str_ref_flat cs jd fuel g a q :
  g !! a = Some q → flat q = true →
  str cs jd (S fuel) g (VRef a) =
  match str_each (str cs jd 0 []) (queryDeclarations q) with
  | Some (Ok ss) => Some (Ok (join "." ss))
  | Some (Raise e) => Some (Raise e)
  | None => None
  end.
Proof.
  intros Hq Hflat. cbn [str]. rewrite Hq.
  by destruct (str_each_plain cs jd fuel g _ Hflat) as [-> _].
Qed.

Lemma build_with_ref cs jd fuel c m g qc ds tok ss x t :
  g !! c = Some qc →
  queryDeclarations qc = (ds ++ [mkDef tok [VRef m]])%list →
  forallb (λ d, forallb plain (parameters d)) ds = true → ds ≠ [] →
  str_each (str cs jd 0 []) ds = Some (Ok ss) →
  str cs jd (S fuel) g (VRef m) = Some (Ok x) →
  (∀ f, f (VRef m) = Some (Ok x) →
        _QueryDefinition.__str__ f (mkDef tok [VRef m]) = Some (Ok t)) →
  _Path.build cs jd (S (S fuel)) c g
  = Some (Ok (join "." ss +:+ "." +:+ t), g).
Proof.
  intros Hc Hds Hflat Hne Hss Hx Ht. unfold _Path.build.
  assert (Hs : str cs jd (S (S fuel)) g (VRef c)
               = Some (Ok (join "." ss +:+ "." +:+ t))); [|by rewrite Hs].
  change (str cs jd (S (S fuel)) g (VRef c)) with
    (match g !! c with
     | None => None
     | Some q =>
         match str_each (str cs jd (S fuel) g) (queryDeclarations q) with
         | Some (Ok ss) => Some (Ok (join "." ss))
         | Some (Raise e) => Some (Raise e)
         | None => None
         end
     end).
  rewrite Hc, Hds.
  destruct (str_each_plain cs jd (S fuel) g _ Hflat) as [Hplain _].
  rewrite <- Hplain in Hss.
  rewrite (str_each_snoc _ _ _ _ _ Hss (Ht _ Hx)).
  rewrite join_snoc; [done|].
  intros ->. apply str_each_length in Hss. by destruct ds.
Qed.

(** X22.  [Intersect] and [Union] accept a [_Vertex], [Follow] and
    [FollowR] a [_Morphism]; the step embeds the serialization of the
    argument, and the argument is kept by reference: a step appended to it
    after the call shows inside the step of the chain that received it. *)
Theorem query_arguments_are_references (cs jd : value → string)
    (fuel c m : nat) (h : heap) (qc qm : _GremlinQuery) (sc sm : string)
    (name : string) (method : nat → value → Op value) (cls : query_class) :
  (name, method, cls) ∈
    [("Intersect", _Path.Intersect, _Vertex); ("Union", _Path.Union, _Vertex);
     ("Follow", _Path.Follow, _Morphism); ("FollowR", _Path.FollowR, _Morphism)] →
  c ≠ m → h !! c = Some qc → h !! m = Some qm → class_of qm = cls →
  flat qc = true → flat qm = true →
  queryDeclarations qc ≠ [] → queryDeclarations qm ≠ [] →
  _Path.build cs jd (S fuel) c h = Some (Ok sc, h) →
  _Path.build cs jd (S fuel) m h = Some (Ok sm, h) →
  ∃ h',
    method c (VRef m) h = Some (Ok (VRef c), h') ∧
    _Path.build cs jd (S (S fuel)) c h'
      = Some (Ok (sc +:+ "." +:+ name +:+ "(" +:+ sm +:+ ")"), h') ∧
    ∀ d t,
      forallb plain (parameters d) = true →
      _QueryDefinition.__str__ (str cs jd 0 []) d = Some (Ok t) →
      _Path.build cs jd (S (S fuel)) c (with_step m d h')
      = Some (Ok (sc +:+ "." +:+ name +:+ "(" +:+ sm +:+ "." +:+ t +:+ ")"),
              with_step m d h').
Proof.
  intros Hin Hne Hc Hm Hcls Hfc Hfm Hnc Hnm Hbc Hbm.
  destruct (build_flat_inv _ _ _ _ _ _ _ Hc Hfc Hbc) as (ssc & Hssc & ->).
  destruct (build_flat_inv _ _ _ _ _ _ _ Hm Hfm Hbm) as (ssm & Hssm & ->).
  assert (Hinst : isinstance h (VRef m) cls = true).
  { simpl. rewrite Hm. by apply bool_decide_eq_true_2. }
  rewrite !elem_of_cons, elem_of_nil in Hin.
  destruct Hin as [[= -> -> ->]|[[= -> -> ->]|[[= -> -> ->]|[[= -> -> ->]|[]]]]];
    (eexists; split_and!;
     [ unfold _Path.Intersect, _Path.Union, _Path.Follow, _Path.FollowR;
       rewrite Hinst; cbn [negb andb]; by apply (put_self _ _ _ _ qc)
     | eapply (build_with_ref _ _ _ c m _ _ (queryDeclarations qc) _ ssc (join "." ssm));
       [ by apply with_step_lookup | done | done | done | done
       | rewrite (str_ref_flat _ _ _ _ _ qm);
         [by rewrite Hssm | by rewrite with_step_lookup_ne | done]
       | intros f Hf; unfold _QueryDefinition.__str__;
         cbn [parameters token format_percent]; rewrite Hf; reflexivity ]
     | intros d t Hd Ht;
       eapply (build_with_ref _ _ _ c m _ _ (queryDeclarations qc) _ ssc
                 (join "." ssm +:+ "." +:+ t));
       [ rewrite with_step_lookup_ne by done; by apply with_step_lookup
       | done | done | done | done
       | rewrite (str_ref_flat _ _ _ _ _
                    (mkQuery (class_of qm) (queryDeclarations qm ++ [d])));
         [ cbn [queryDeclarations]; rewrite (str_each_snoc _ _ _ _ _ Hssm Ht);
           rewrite join_snoc; [done|];
           intros ->; apply str_each_length in Hssm;
           by destruct (queryDeclarations qm)
         | apply with_step_lookup; by rewrite with_step_lookup_ne
         | by apply flat_snoc ]
       | intros f Hf; unfold _QueryDefinition.__str__;
         cbn [parameters token format_percent]; rewrite Hf;
         rewrite ?string_app_assoc; reflexivity ] ]).
Qed.

Lemma query_arguments_are_references_witness :
  let h := [mkQuery _Vertex [mkDef "g.V('alice')" []]; mkQuery _Morphism [mkDef "g.Morphism()" []]] in
  ∃ h',
    _Path.Follow 0 (VRef 1) h = Some (Ok (VRef 0), h') ∧
    _Path.build (λ _, "") (λ _, "") 2 0 h'
      = Some (Ok "g.V('alice').Follow(g.Morphism())", h') ∧
    _Path.build (λ _, "") (λ _, "") 2 0
      (with_step 1 (mkDef "Back('%s')" [VStr "t"]) h')
      = Some (Ok "g.V('alice').Follow(g.Morphism().Back('t'))",
              with_step 1 (mkDef "Back('%s')" [VStr "t"]) h').
Proof.
  intros h.
  destruct (query_arguments_are_references (λ _, "") (λ _, "") 0 0 1 h
              (mkQuery _Vertex [mkDef "g.V('alice')" []]) (mkQuery _Morphism [mkDef "g.Morphism()" []])
              "g.V('alice')" "g.Morphism()" "Follow" _Path.Follow _Morphism)
    as (h' & Hcall & Hbuild & Hlater);
    [ do 2 right; by left | discriminate | reflexivity | reflexivity
    | reflexivity | reflexivity | reflexivity | discriminate | discriminate
    | reflexivity | reflexivity | ].
  exists h'. split_and!; [exact Hcall | exact Hbuild |].
  apply (Hlater (mkDef "Back('%s')" [VStr "t"]) "Back('t')"); reflexivity.
Defined.

(** ** Ids that are no text *)



